(** * ColorPeek: the palette extractor of [app.py]

    A shallow embedding of [extract_palette_pillow] (app.py, lines 39-117)
    and of the Python and Pillow operations it calls, of [allowed_file]
    (lines 23-33) and of the route [index] (lines 123-170), followed by
    their properties.

    - Python values: [int] is [Z] or [nat] (pixel counts and palette
      indices are naturals by construction), [float] is a binary64
      primitive float, a [dict] with fixed keys is a record, an exception is
      a constructor of [exn].
    - Pillow images are mutable objects: they live in a store ([heap]) and
      the code handles references to them.  [copy], [convert], [split] and
      [Image.new] allocate; [thumbnail] and [paste] update in place.
    - The two Pillow primitives whose algorithm is a choice of the library,
      the resampling filter behind [thumbnail] and the adaptive quantizer
      behind [convert('P', palette=ADAPTIVE)], are operations of the
      [Imaging] interface.
    - Pillow's methods are modelled on the arguments that Pillow accepts.
      Two of them refuse some arguments with an exception of their own:
      [thumbnail] (see [thumbnail_accepts]) and the quantizer, which wants
      between 1 and 256 colours.  The properties that say which exceptions
      leave [extract_palette_pillow] carry both as hypotheses. *)

From Stdlib Require Import ZArith String Ascii Uint63 PrimFloat SpecFloat FloatOps.
From stdpp Require Import base list sorting.

(** ** Python built-ins *)

Module Py.

Inductive exn := IndexError | ZeroDivisionError.

(** The outcome of evaluating an expression or a block. *)
Inductive outcome (A : Type) :=
| Returned (a : A)
| Raised (e : exn).
Arguments Returned {A} a.
Arguments Raised {A} e.

Definition bind {A B} (o : outcome A) (f : A → outcome B) : outcome B :=
  match o with
  | Returned a => f a
  | Raised e => Raised e
  end.

(** [l[i]] for [i >= 0]. *)
Definition getitem {A} (l : list A) (i : nat) : outcome A :=
  match l !! i with
  | Some x => Returned x
  | None => Raised IndexError
  end.

(** [float(n)]; exact for [0 <= |n| < 2^53], the range of a pixel count. *)
Definition float_of_int (n : Z) : float :=
  if (n <? 0)%Z then PrimFloat.opp (PrimFloat.of_uint63 (Uint63.of_Z (- n)))
  else PrimFloat.of_uint63 (Uint63.of_Z n).

(** [a / b] on ints: true division. *)
Definition truediv (a b : Z) : outcome float :=
  if (b =? 0)%Z then Raised ZeroDivisionError
  else Returned (PrimFloat.div (float_of_int a) (float_of_int b)).

(** The integer nearest to [m * 2^e * 100], ties to even. *)
Definition scale100_half_even (m e : Z) : Z :=
  let num := (m * 100)%Z in
  if (0 <=? e)%Z then (num * 2 ^ e)%Z
  else
    let d := (2 ^ (- e))%Z in
    let q := (num / d)%Z in
    let r := (num mod d)%Z in
    if (2 * r <? d)%Z then q
    else if (d <? 2 * r)%Z then (q + 1)%Z
    else if Z.even q then q else (q + 1)%Z.

(** [round(x, 2)] on a float: the exact binary value of [x] is rounded to
    two decimals, ties to even, and the decimal is read back as the nearest
    float.  From [2^46] on, a float is further from its neighbours than
    0.01 and is its own rounding. *)
Definition round2 (x : float) : float :=
  match Prim2SF x with
  | S754_finite s m e =>
      if PrimFloat.leb 0x1p46%float (PrimFloat.abs x) then x
      else
        let r := PrimFloat.div (float_of_int (scale100_half_even (Zpos m) e))
                               100%float in
        if s then PrimFloat.opp r else r
  | _ => x
  end.

Definition hex_digit (d : Z) : ascii :=
  match d with
  | 0 => "0" | 1 => "1" | 2 => "2" | 3 => "3" | 4 => "4" | 5 => "5"
  | 6 => "6" | 7 => "7" | 8 => "8" | 9 => "9" | 10 => "a" | 11 => "b"
  | 12 => "c" | 13 => "d" | 14 => "e" | _ => "f"
  end%Z%char.

Fixpoint hex_digits (fuel : nat) (n : Z) : string :=
  match fuel with
  | O => EmptyString
  | S fuel' =>
      if (n <? 16)%Z then String (hex_digit n) EmptyString
      else String.append (hex_digits fuel' (n / 16))
                         (String (hex_digit (n mod 16)) EmptyString)
  end.

(** ['%x' % n] for [n >= 0]. *)
Definition format_x (n : Z) : string :=
  hex_digits (S (Z.to_nat (Z.log2 n))) n.

(** ['%02x' % n]. *)
Definition format_02x (n : Z) : string :=
  if (n <? 0)%Z then String "-" (format_x (- n))
  else
    let s := format_x n in
    if (String.length s <? 2)%nat then String "0" s else s.

End Py.

Import Py.

(** ** Pillow images *)

Definition color : Type := Z * Z * Z.

Definition white : color := (255, 255, 255)%Z.

Inductive mode := L | LA | P | RGB | RGBA.

Global Instance mode_eq_dec : EqDecision mode.
Proof. solve_decision. Defined.

(** Pixel data, row by row, by mode.  A [P] image carries its palette as
    Pillow stores it: flat, [r0; g0; b0; r1; ...]. *)
Inductive pixels :=
| DataL (px : list Z)
| DataLA (px : list (Z * Z))
| DataP (palette : list Z) (px : list nat)
| DataRGB (px : list color)
| DataRGBA (px : list (color * Z)).

(** [info['transparency']] of an indexed image: one transparent index, or
    one alpha value per palette index. *)
Inductive transparency :=
| TransparentIndex (i : nat)
| TransparentAlphas (alphas : list Z).

Record Image := mkImage {
  size : nat * nat;
  data : pixels;
  info_transparency : option transparency
}.

Definition image_mode (im : Image) : mode :=
  match data im with
  | DataL _ => L
  | DataLA _ => LA
  | DataP _ _ => P
  | DataRGB _ => RGB
  | DataRGBA _ => RGBA
  end.

Definition npixels (d : pixels) : nat :=
  match d with
  | DataL px => length px
  | DataLA px => length px
  | DataP _ px => length px
  | DataRGB px => length px
  | DataRGBA px => length px
  end.

Definition palette_entry (palette : list Z) (i : nat) : color :=
  (palette !!! (i * 3), palette !!! (i * 3 + 1), palette !!! (i * 3 + 2)).

(** The colour of every pixel, as [convert('RGB')] computes it (and as
    [paste] reads a source of another mode into an RGB destination). *)
Definition rgb_pixels (im : Image) : list color :=
  match data im with
  | DataL px => (λ v, (v, v, v)) <$> px
  | DataLA px => (λ va, (va.1, va.1, va.1)) <$> px
  | DataP palette px => palette_entry palette <$> px
  | DataRGB px => px
  | DataRGBA px => fst <$> px
  end.

Definition palette_alpha (t : option transparency) (i : nat) : Z :=
  match t with
  | None => 255
  | Some (TransparentIndex j) => if decide (i = j) then 0 else 255
  | Some (TransparentAlphas alphas) => default 255%Z (alphas !! i)
  end%Z.

(** The alpha of every pixel, as [convert('RGBA')] computes it. *)
Definition alpha_pixels (im : Image) : list Z :=
  match data im with
  | DataL px => (λ _, 255%Z) <$> px
  | DataLA px => snd <$> px
  | DataP _ px => palette_alpha (info_transparency im) <$> px
  | DataRGB px => (λ _, 255%Z) <$> px
  | DataRGBA px => snd <$> px
  end.

Definition convert_RGB (im : Image) : Image :=
  mkImage (size im) (DataRGB (rgb_pixels im)) (info_transparency im).

Definition convert_RGBA (im : Image) : Image :=
  mkImage (size im) (DataRGBA (zip (rgb_pixels im) (alpha_pixels im))) None.

(** The bands of an image, each a pixel list of an [L] image. *)
Definition bands (im : Image) : list (list Z) :=
  match data im with
  | DataL px => [px]
  | DataLA px => [fst <$> px; snd <$> px]
  | DataP _ px => [Z.of_nat <$> px]
  | DataRGB px => [(λ c, c.1.1) <$> px; (λ c, c.1.2) <$> px; (λ c, c.2) <$> px]
  | DataRGBA px =>
      [(λ c, c.1.1.1) <$> px; (λ c, c.1.1.2) <$> px; (λ c, c.1.2) <$> px;
       snd <$> px]
  end.

Definition new_RGB (sz : nat * nat) (c : color) : Image :=
  mkImage sz (DataRGB (replicate (sz.1 * sz.2) c)) None.

(** Modelled from the spec: the per-channel blend of [Image.paste] with a
    mask, which is Pillow's and not in the repository.  The spec (4.2) gives
    result = source * alpha + background * (1 - alpha) with alpha the mask
    value as a fraction of 255; on 8-bit channels this is the nearest integer
    to [(src * a + bg * (255 - a)) / 255] (no tie can occur). *)
Definition blend8 (bg src a : Z) : Z :=
  ((src * a + bg * (255 - a) + 127) / 255)%Z.

Definition blend_rgb (bg src : color) (a : Z) : color :=
  (blend8 bg.1.1 src.1.1 a, blend8 bg.1.2 src.1.2 a, blend8 bg.2 src.2 a).

(** [dst.paste(src, mask=mask)] on the pixels of an RGB destination, the
    three images having the same size. *)
Definition paste_pixels (dst src : list color) (mask : list Z) : list color :=
  zip_with (λ d sa, blend_rgb d sa.1 sa.2) dst (zip src mask).

Definition paste_image (dst src mask : Image) : Image :=
  match data dst, data mask with
  | DataRGB d, DataL m =>
      mkImage (size dst) (DataRGB (paste_pixels d (rgb_pixels src) m))
              (info_transparency dst)
  | _, _ => dst
  end.

(** [getcolors()] of a [P] image:
    [[(h[i], i) for i in range(256) if h[i]]] with [h] the histogram. *)
Definition histogram (px : list nat) (i : nat) : nat :=
  length (filter (λ j, j = i) px).

Definition getcolors_pixels (px : list nat) : list (nat * nat) :=
  (λ i, (histogram px i, i)) <$> filter (λ i, histogram px i ≠ 0) (seq 0 256).

(** ** The library interface *)

Class Imaging := {
  (** [thumbnail] on an image larger than the bound: the resampled image. *)
  resample_to_fit : Image → nat → Image;
  (** [convert('P', palette=ADAPTIVE, colors=k)] on RGB pixels: the flat
      palette and the palette index of every pixel. *)
  quantize : list color → nat → list Z * list nat
}.

(** Modelled from the spec: the contract of the adaptive quantizer, which is
    Pillow's and not in the repository (spec 4.3), for [1 <= k <= 256]:
    every pixel gets one palette index, which depends on its colour only
    (no dithering), is below [k], and names a stored palette entry. *)
Class QuantizerContract (lib : Imaging) := {
  quantize_assign : ∀ px k, 1 ≤ k ≤ 256 →
    ∃ f : color → nat, (quantize px k).2 = f <$> px;
  quantize_index_bound : ∀ px k i, 1 ≤ k ≤ 256 →
    i ∈ (quantize px k).2 → i < k ∧ i * 3 + 2 < length (quantize px k).1
}.

(** ** The store of image objects *)

(** References are positions in the store. *)
Abbreviation ref := nat (only parsing).
Abbreviation heap := (list Image) (only parsing).

Global Instance Image_inhabited : Inhabited Image :=
  populate (mkImage (0, 0) (DataRGB []) None).

(** A block of Python: it may update the store, and returns or raises. *)
Definition M (A : Type) : Type := heap → outcome A * heap.

Global Instance M_ret : MRet M := λ A a h, (Returned a, h).

Global Instance M_bind : MBind M := λ A B f m h,
  match m h with
  | (Returned a, h') => f a h'
  | (Raised e, h') => (Raised e, h')
  end.

Global Instance outcome_ret : MRet outcome := @Returned.

Global Instance outcome_bind : MBind outcome := λ A B f o, Py.bind o f.

Definition lift {A} (o : outcome A) : M A := λ h, (o, h).

Definition alloc (im : Image) : M ref := λ h, (Returned (length h), h ++ [im]).

Definition deref (r : ref) : M Image := λ h, (Returned (h !!! r), h).

Definition assign (r : ref) (im : Image) : M unit :=
  λ h, (Returned (), <[r := im]> h).

Fixpoint alloc_all (ims : list Image) : M (list ref) :=
  match ims with
  | [] => mret []
  | im :: ims' => r ← alloc im; rs ← alloc_all ims'; mret (r :: rs)
  end.

(** ** Pillow methods, on references *)

Section Pillow.
Context {lib : Imaging}.

(** [im.copy()] *)
Definition Image_copy (r : ref) : M ref :=
  im ← deref r; alloc im.

Definition thumbnail_image (im : Image) (bound : nat) : Image :=
  if bool_decide ((size im).1 ≤ bound ∧ (size im).2 ≤ bound) then im
  else resample_to_fit im bound.

(** [im.thumbnail((bound, bound))]: in place. *)
Definition Image_thumbnail (r : ref) (bound : nat) : M unit :=
  im ← deref r; assign r (thumbnail_image im bound).

(** Arguments that [thumbnail] accepts.  Pillow, which is not in the
    repository, leaves an image within the bound as it is.  For a larger one
    it computes the new size from the quotients width / height and
    bound / bound, and raises [ZeroDivisionError] when the height or the
    bound is 0.  It returns on the arguments below: an image within the
    bound, or a positive bound and an image with pixels.  [Image_thumbnail]
    is the call on these. *)
Definition thumbnail_accepts (im : Image) (bound : nat) : Prop :=
  ((size im).1 ≤ bound ∧ (size im).2 ≤ bound)
  ∨ (0 < bound ∧ 0 < (size im).1 ∧ 0 < (size im).2).

(** [Image.new("RGB", size, color)] *)
Definition Image_new_RGB (sz : nat * nat) (c : color) : M ref :=
  alloc (new_RGB sz c).

(** [im.convert('RGB')] and [im.convert("RGBA")] *)
Definition Image_convert_RGB (r : ref) : M ref :=
  im ← deref r; alloc (convert_RGB im).

Definition Image_convert_RGBA (r : ref) : M ref :=
  im ← deref r; alloc (convert_RGBA im).

(** [im.split()]: one new [L] image per band. *)
Definition Image_split (r : ref) : M (list ref) :=
  im ← deref r;
  alloc_all ((λ b, mkImage (size im) (DataL b) None) <$> bands im).

(** [l[-1]] *)
Definition getitem_last {A} (l : list A) : outcome A :=
  match last l with
  | Some x => Returned x
  | None => Raised IndexError
  end.

(** [dst.paste(src, mask=mask)]: in place on [dst]. *)
Definition Image_paste (dst src mask : ref) : M unit :=
  d ← deref dst; s ← deref src; m ← deref mask;
  assign dst (paste_image d s m).

Definition quantize_image (im : Image) (colors : nat) : Image :=
  let '(palette, px) := quantize (rgb_pixels im) colors in
  mkImage (size im) (DataP palette px) None.

(** [im.convert('P', palette=Image.ADAPTIVE, colors=colors)], for
    [1 <= colors <= 256]: Pillow's quantizer raises [ValueError] (bad number
    of colors) for another number on an image with pixels. *)
Definition Image_convert_P_adaptive (r : ref) (colors : nat) : M ref :=
  im ← deref r; alloc (quantize_image im colors).

Definition image_palette (im : Image) : list Z :=
  match data im with
  | DataP palette _ => palette
  | _ => []
  end.

Definition image_colors (im : Image) : list (nat * nat) :=
  match data im with
  | DataP _ px => getcolors_pixels px
  | _ => []
  end.

(** [im.getpalette()] and [im.getcolors()] *)
Definition Image_getpalette (r : ref) : M (list Z) :=
  im ← deref r; mret (image_palette im).

Definition Image_getcolors (r : ref) : M (list (nat * nat)) :=
  im ← deref r; mret (image_colors im).

(** ** [extract_palette_pillow] *)

(** One element of the result list: the dict with keys
    ['hex'], ['rgb'], ['count'] and ['percent']. *)
Record ColorRecord := mkColorRecord {
  hex : string;
  rgb : color;
  count : nat;
  percent : float
}.

(** The order of Python on the tuples [(count, idx)], as [sort(reverse=True)]
    uses it: [tuple_ge a b] is [a >= b]. *)
Definition tuple_ge (a b : nat * nat) : Prop :=
  b.1 < a.1 ∨ (b.1 = a.1 ∧ b.2 ≤ a.2).

Global Instance tuple_ge_dec : RelDecision tuple_ge.
Proof. intros a b. unfold tuple_ge. apply _. Defined.

(** [l.sort(reverse=True)] *)
Definition sort_reverse (l : list (nat * nat)) : list (nat * nat) :=
  merge_sort tuple_ge l.

(** [sum(count for count, idx in color_counts)] *)
Definition sum_counts (color_counts : list (nat * nat)) : nat :=
  sum_list (fst <$> color_counts).

(** Lines 96-115: the body of the loop, for one [i]. *)
Definition loop_body (palette : list Z) (color_counts : list (nat * nat))
    (total : nat) (i : nat) : outcome ColorRecord :=
  '(count, idx) ← getitem color_counts i;
  r ← getitem palette (idx * 3);
  g ← getitem palette (idx * 3 + 1);
  b ← getitem palette (idx * 3 + 2);
  let hexcode :=
    String "#" (String.append (format_02x r)
                  (String.append (format_02x g) (format_02x b))) in
  q ← truediv (Z.of_nat count) (Z.of_nat total);
  let percent := round2 (PrimFloat.mul q (float_of_int 100)) in
  mret (mkColorRecord hexcode (r, g, b) count percent).

(** Lines 92-117: [for i in range(num_colors)], appending to [results]. *)
Fixpoint loop (palette : list Z) (color_counts : list (nat * nat))
    (total : nat) (range : list nat) (results : list ColorRecord)
    : outcome (list ColorRecord) :=
  match range with
  | [] => Returned results
  | i :: range' =>
      rec ← loop_body palette color_counts total i;
      loop palette color_counts total range' (results ++ [rec])
  end.

(** [image.mode in ("RGBA", "LA") or
     (image.mode == "P" and 'transparency' in image.info)] *)
Definition has_transparency (im : Image) : bool :=
  bool_decide (image_mode im = RGBA ∨ image_mode im = LA)
  || (bool_decide (image_mode im = P) && bool_decide (is_Some (info_transparency im))).

Definition extract_palette_pillow (pil_image : ref) (num_colors : nat)
    (resize_for_speed : nat) : M (list ColorRecord) :=
  image ← Image_copy pil_image;
  _ ← Image_thumbnail image resize_for_speed;
  im ← deref image;
  image ← (if has_transparency im then
             background ← Image_new_RGB (size im) white;
             rgba ← Image_convert_RGBA image;
             channels ← Image_split rgba;
             alpha ← lift (getitem_last channels);
             _ ← Image_paste background image alpha;
             mret background
           else
             Image_convert_RGB image);
  paletted ← Image_convert_P_adaptive image num_colors;
  palette ← Image_getpalette paletted;
  color_counts ← Image_getcolors paletted;
  if bool_decide (color_counts = []) then mret []
  else
    let color_counts := sort_reverse color_counts in
    let total := sum_counts color_counts in
    lift (loop palette color_counts total (seq 0 num_colors) []).

End Pillow.

(** ** What the loop appends *)

Definition percent_of (count total : nat) : float :=
  round2 (PrimFloat.mul
            (PrimFloat.div (float_of_int (Z.of_nat count))
                           (float_of_int (Z.of_nat total)))
            (float_of_int 100)).

Definition hexcode_of (c : color) : string :=
  String "#" (String.append (format_02x c.1.1)
                (String.append (format_02x c.1.2) (format_02x c.2))).

(** The record that the loop appends for the entry [(count, idx)]. *)
Definition color_record_of (palette : list Z) (total : nat) (ci : nat * nat)
    : ColorRecord :=
  let c := palette_entry palette ci.2 in
  mkColorRecord (hexcode_of c) c ci.1 (percent_of ci.1 total).

(** The palette stores the three channels of the entry. *)
Definition stored (palette : list Z) (ci : nat * nat) : Prop :=
  ci.2 * 3 + 2 < length palette.

(** The strict order of Python on the tuples [(count, idx)]. *)
Definition tuple_gt (a b : nat * nat) : Prop :=
  b.1 < a.1 ∨ (b.1 = a.1 ∧ b.2 < a.2).

(** ** The stages of the pipeline, as functions of the argument image *)

Section Stages.
Context {lib : Imaging}.

(** The alpha band that line 67 extracts. *)
Definition alpha_band (im : Image) : Image :=
  mkImage (size im) (DataL (snd <$> zip (rgb_pixels im) (alpha_pixels im))) None.

(** Step 2 (lines 63-73). *)
Definition flatten_image (im : Image) : Image :=
  if has_transparency im then
    paste_image (new_RGB (size im) white) im (alpha_band im)
  else convert_RGB im.

(** The pixels that reach the quantizer. *)
Definition flattened (im : Image) (bound : nat) : list color :=
  rgb_pixels (flatten_image (thumbnail_image im bound)).

Definition paletted (im : Image) (k bound : nat) : Image :=
  quantize_image (flatten_image (thumbnail_image im bound)) k.

(** [color_counts] at line 82: the used palette entries with their counts. *)
Definition used_entries (im : Image) (k bound : nat) : list (nat * nat) :=
  image_colors (paletted im k bound).

(** Lines 83-117. *)
Definition rank_and_format (palette : list Z) (color_counts : list (nat * nat))
    (k : nat) : outcome (list ColorRecord) :=
  if bool_decide (color_counts = []) then Returned []
  else
    loop palette (sort_reverse color_counts)
         (sum_counts (sort_reverse color_counts)) (seq 0 k) [].

Definition palette_of (im : Image) (k bound : nat) : outcome (list ColorRecord) :=
  rank_and_format (image_palette (paletted im k bound)) (used_entries im k bound) k.

(** The first [k] entries of the ranking, formatted; [total] is the number
    of pixels that were quantized. *)
Definition ranked_records (im : Image) (k bound : nat) : list ColorRecord :=
  color_record_of (quantize (flattened im bound) k).1 (length (flattened im bound))
    <$> take k (sort_reverse (used_entries im k bound)).

(** The objects that a call allocates, in order. *)
Definition allocated (im : Image) (k bound : nat) : list Image :=
  let t := thumbnail_image im bound in
  if has_transparency t then
    [t; flatten_image t; convert_RGBA t]
      ++ ((λ b, mkImage (size t) (DataL b) None) <$> bands (convert_RGBA t))
      ++ [paletted im k bound]
  else [t; flatten_image t; paletted im k bound].

End Stages.

(** ** A reference implementation of the library interface

    Nearest-neighbour resampling, and a quantizer in the manner of median
    cut: the distinct colours, in their order in the image, are cut into at
    most [k] boxes of consecutive colours (one colour per box when there are
    at most [k] colours), and the palette entry of a box is the rounded mean
    of its pixels. *)

Module Reference.

Definition fit_size (sz : nat * nat) (bound : nat) : nat * nat :=
  let '(w, h) := sz in
  if decide (h ≤ w) then (bound, max 1 (h * bound / w))
  else (max 1 (w * bound / h), bound).

Definition resample_list {A} (sz sz' : nat * nat) (l : list A) : list A :=
  omap (λ j, l !! ((j / sz'.1) * sz.2 / sz'.2 * sz.1 + (j mod sz'.1) * sz.1 / sz'.1))
       (seq 0 (sz'.1 * sz'.2)).

Definition nearest_resample (im : Image) (bound : nat) : Image :=
  let sz' := fit_size (size im) bound in
  let pick {A} (l : list A) := resample_list (size im) sz' l in
  mkImage sz'
    match data im with
    | DataL px => DataL (pick px)
    | DataLA px => DataLA (pick px)
    | DataP palette px => DataP palette (pick px)
    | DataRGB px => DataRGB (pick px)
    | DataRGBA px => DataRGBA (pick px)
    end
    (info_transparency im).

Definition index_of (c : color) (cs : list color) : nat :=
  default 0 (fst <$> list_find (λ x, x = c) cs).

Definition flat_palette (cs : list color) : list Z :=
  cs ≫= λ c, [c.1.1; c.1.2; c.2].

Definition mean_channel (ch : color → Z) (px : list color) : Z :=
  let n := Z.of_nat (length px) in
  ((2 * foldr Z.add 0 (ch <$> px) + n) / (2 * n))%Z.

Definition mean_color (px : list color) : color :=
  (mean_channel (λ c, c.1.1) px, mean_channel (λ c, c.1.2) px,
   mean_channel (λ c, c.2) px).

(** The box of a colour: its rank among the distinct colours [cs], scaled
    to [k] boxes when there are more than [k] colours. *)
Definition box_of (cs : list color) (k : nat) (c : color) : nat :=
  if decide (length cs ≤ k) then index_of c cs
  else index_of c cs * k / length cs.

Definition box_pixels (cs : list color) (k : nat) (px : list color) (b : nat)
    : list color :=
  filter (λ c, box_of cs k c = b) px.

Definition box_quantize (px : list color) (k : nat) : list Z * list nat :=
  let cs := remove_dups px in
  (flat_palette
     ((λ b, mean_color (box_pixels cs k px b)) <$> seq 0 (min k (length cs))),
   box_of cs k <$> px).

Definition imaging : Imaging :=
  {| resample_to_fit := nearest_resample; quantize := box_quantize |}.

End Reference.

(** ** Example images *)

Module Examples.

Definition black : color := (0, 0, 0)%Z.
Definition red : color := (255, 0, 0)%Z.
Definition teal : color := (0, 128, 128)%Z.

(** A solid 10x10 red opaque image. *)
Definition red_10x10 : Image :=
  mkImage (10, 10) (DataRGB (replicate 100 red)) None.

(** 4x4, eight black pixels and eight white ones. *)
Definition black_white_4x4 : Image :=
  mkImage (4, 4) (DataRGB (replicate 8 black ++ replicate 8 white)) None.

(** 2x2, three black pixels and a white one. *)
Definition three_black_one_white : Image :=
  mkImage (2, 2) (DataRGB [black; black; white; black]) None.

(** 3x2 with three colours: three teal, two red, one black. *)
Definition three_colors : Image :=
  mkImage (3, 2) (DataRGB [teal; red; teal; black; red; teal]) None.

(** 2x2 with four colours. *)
Definition four_colors : Image :=
  mkImage (2, 2) (DataRGB [black; red; teal; white]) None.

(** A fully transparent 2x2 RGBA image. *)
Definition transparent_2x2 : Image :=
  mkImage (2, 2) (DataRGBA (replicate 4 ((12, 34, 56), 0)%Z)) None.

(** 4x2 RGBA, with alpha from 0 to 255. *)
Definition glass_4x2 : Image :=
  mkImage (4, 2)
    (DataRGBA [(red, 0); (red, 64); (red, 128); (red, 255);
               (teal, 255); (teal, 128); (black, 64); (black, 0)]%Z)
    None.

(** An image without pixels. *)
Definition empty_image : Image := mkImage (0, 0) (DataRGB []) None.

End Examples.

(** A call with the reference library. *)
Abbreviation run_reference p k bound h :=
  (extract_palette_pillow (lib := Reference.imaging) p k bound h) (only parsing).

(** ** [allowed_file] (app.py, lines 17-33)

    A [str] is a string of characters below U+0100. *)

Global Instance string_eq_decision : EqDecision string := String.string_dec.

(** [ALLOWED_EXTENSIONS], line 17. *)
Definition ALLOWED_EXTENSIONS : list string :=
  ["png"; "jpg"; "jpeg"; "gif"]%string.

(** [c.lower()] on one character: [A-Z] and the capital letters of Latin-1
    (U+00C0 to U+00DE, the sign U+00D7 apart) move up by 32. *)
Definition lower_char (c : ascii) : ascii :=
  let n := nat_of_ascii c in
  if (65 <=? n) && (n <=? 90)
     || (192 <=? n) && (n <=? 222) && negb (n =? 215)
  then ascii_of_nat (n + 32) else c.

(** [s.lower()] *)
Fixpoint lower (s : string) : string :=
  match s with
  | EmptyString => EmptyString
  | String c s' => String (lower_char c) (lower s')
  end.

(** [c in s], for one character. *)
Fixpoint contains (c : ascii) (s : string) : bool :=
  match s with
  | EmptyString => false
  | String d s' => if Ascii.eqb d c then true else contains c s'
  end.

(** The two sides of the last [sep] of [s], when there is one. *)
Fixpoint rpartition (sep : ascii) (s : string) : option (string * string) :=
  match s with
  | EmptyString => None
  | String c s' =>
      match rpartition sep s' with
      | Some (head, tail) => Some (String c head, tail)
      | None => if Ascii.eqb c sep then Some (EmptyString, s') else None
      end
  end.

(** [s.rsplit(sep, 1)], for a separator of one character. *)
Definition rsplit1 (sep : ascii) (s : string) : list string :=
  match rpartition sep s with
  | Some (head, tail) => [head; tail]
  | None => [s]
  end.

(** Line 33; [and] evaluates its right side only when the left one holds. *)
Definition allowed_file (filename : string) : outcome bool :=
  if contains "." filename then
    ext ← getitem (rsplit1 "." filename) 1;
    mret (bool_decide (lower ext ∈ ALLOWED_EXTENSIONS))
  else mret false.

(** ** The route [index] (app.py, lines 123-170)

    The request, the rendered page and the collaborators of the handler:
    the decoder behind [Image.open], the built-in [int] on a [str], the
    JPEG encoder behind [save] and [base64.b64encode]. *)

Module Flask.

(** [request.files.get('image')]: a file with its name and its stream. *)
Record FileStorage := mkFileStorage {
  filename : string;
  stream : string
}.

Record Request := mkRequest {
  method : string;
  files_image : option FileStorage;
  (** [request.form.get('num_colors')], absent when the form has no such
      field. *)
  form_num_colors : option string
}.

(** [render_template('index.html', ...)]: the keyword arguments. *)
Record Page := mkPage {
  page_error : option string;
  page_palette : option (list ColorRecord);
  page_image_data : option string;
  page_num_colors : option Z
}.

(** What [Image.open] does with a stream. *)
Inductive opened :=
| Opened (im : Image)
| UnidentifiedImageError
| OpenRaised.

Class Web := {
  Image_open : string → opened;
  (** [int(s)] on a [str]: [None] when it raises [ValueError]. *)
  int_of_str : string → option Z;
  (** [im.save(buf, format='JPEG')] and [buf.getvalue()]: [None] when the
      encoder raises. *)
  save_jpeg : Image → option string;
  (** [base64.b64encode(b).decode('utf-8')] *)
  b64encode : string → string
}.

(** An exception that leaves the handler. *)
Inductive failure :=
| CoreRaised (e : exn)
| OpenFailed
| SaveFailed.

Inductive response :=
| Rendered (page : Page)
| Failed (f : failure).

Definition form_page : Page := mkPage None None None None.

Definition error_page (msg : string) : Page := mkPage (Some msg) None None None.

Definition upload_error : string :=
  "Please upload a valid image file (png/jpg/jpeg/gif).".

Definition identify_error : string :=
  "Cannot identify image file. Try a different file.".

Section Handler.
Context {lib : Imaging} {web : Web}.

(** Lines 146-151: [int(request.form.get('num_colors', 6))], clamped to
    1..20, and 6 on [ValueError]. *)
Definition requested_colors (form_value : option string) : Z :=
  let parsed :=
    match form_value with
    | None => Some 6%Z
    | Some s => int_of_str s
    end in
  match parsed with
  | Some num_colors => Z.max 1 (Z.min 20 num_colors)
  | None => 6%Z
  end.

(** Line 135:
    [not file or file.filename == '' or not allowed_file(file.filename)];
    a file without a name is falsy. *)
Definition rejected (file : option FileStorage) : outcome bool :=
  match file with
  | None => Returned true
  | Some f =>
      if String.eqb (filename f) "" then Returned true
      else ok ← allowed_file (filename f); mret (negb ok)
  end.

(** Lines 157-158: [preview = image.copy(); preview.thumbnail((600, 600))];
    the image that is saved. *)
Definition make_preview (image : ref) : M Image :=
  preview ← Image_copy image;
  _ ← Image_thumbnail preview 600;
  deref preview.

Definition index (req : Request) (h : heap) : response * heap :=
  if String.eqb (method req) "POST" then
    match rejected (files_image req), files_image req with
    | Raised e, _ => (Failed (CoreRaised e), h)
    | Returned true, _ | Returned false, None =>
        (Rendered (error_page upload_error), h)
    | Returned false, Some file =>
        match Image_open (stream file) with
        | UnidentifiedImageError => (Rendered (error_page identify_error), h)
        | OpenRaised => (Failed OpenFailed, h)
        | Opened im =>
            let image := length h in
            let h := h ++ [im] in
            let num_colors := requested_colors (form_num_colors req) in
            match extract_palette_pillow image (Z.to_nat num_colors) 800 h with
            | (Raised e, h) => (Failed (CoreRaised e), h)
            | (Returned palette, h) =>
                match make_preview image h with
                | (Raised e, h) => (Failed (CoreRaised e), h)
                | (Returned preview, h) =>
                    match save_jpeg preview with
                    | None => (Failed SaveFailed, h)
                    | Some buf =>
                        let data_uri :=
                          String.append "data:image/jpeg;base64," (b64encode buf) in
                        (Rendered (mkPage None (Some palette) (Some data_uri)
                                     (Some num_colors)), h)
                    end
                end
            end
        end
    end
  else (Rendered form_page, h).

End Handler.

(** Stand-ins for the collaborators, to run the handler on examples: a
    stream is a row of grey pixels, one per character; [int] reads ASCII
    digits; the encoder writes the grey or RGB pixels it is given. *)
Module Stub.

Definition open_grey_row (s : string) : opened :=
  match s with
  | EmptyString => UnidentifiedImageError
  | _ =>
      let px := (λ c, Z.of_nat (nat_of_ascii c)) <$> list_ascii_of_string s in
      Opened (mkImage (length px, 1) (DataL px) None)
  end.

Fixpoint digits_value (acc : Z) (s : string) : option Z :=
  match s with
  | EmptyString => Some acc
  | String c s' =>
      let n := nat_of_ascii c in
      if (48 <=? n) && (n <=? 57)
      then digits_value (10 * acc + Z.of_nat (n - 48)) s'
      else None
  end.

Definition int_of_digits (s : string) : option Z :=
  match s with
  | EmptyString => None
  | _ => digits_value 0 s
  end.

Definition channel_char (v : Z) : ascii := ascii_of_nat (Z.to_nat v).

Definition write_pixels (im : Image) : option string :=
  match data im with
  | DataL px => Some (string_of_list_ascii (channel_char <$> px))
  | DataRGB px =>
      Some (string_of_list_ascii
              (px ≫= λ c, [channel_char c.1.1; channel_char c.1.2; channel_char c.2]))
  | _ => None
  end.

Definition web : Web :=
  {| Image_open := open_grey_row; int_of_str := int_of_digits;
     save_jpeg := write_pixels; b64encode := id |}.

End Stub.

End Flask.

(** A request with the reference library and the stand-in collaborators. *)
Abbreviation index_reference req h :=
  (Flask.index (lib := Reference.imaging) (web := Flask.Stub.web) req h)
  (only parsing).

(** ** More examples: images and requests *)

Module MoreExamples.
Import Examples.

(** 2x1 RGBA, both pixels opaque, and the RGB image of the same colours. *)
Definition opaque_rgba_2x1 : Image :=
  mkImage (2, 1) (DataRGBA [(red, 255); (teal, 255)]%Z) None.

Definition rgb_2x1 : Image :=
  mkImage (2, 1) (DataRGB [red; teal]) None.

(** An upload of three grey pixels, two of them alike. *)
Definition photo : Flask.FileStorage :=
  Flask.mkFileStorage "holiday.photo.PNG" "aab".

Definition photo_image : Image :=
  mkImage (3, 1) (DataL [97; 97; 98]%Z) None.

(** The form asks for two colours. *)
Definition post_two_colors : Flask.Request :=
  Flask.mkRequest "POST" (Some photo) (Some "2"%string).

(** The form has no [num_colors] field. *)
Definition post_default : Flask.Request :=
  Flask.mkRequest "POST" (Some photo) None.

(** An upload whose name has no allowed extension. *)
Definition post_script : Flask.Request :=
  Flask.mkRequest "POST"
    (Some (Flask.mkFileStorage "photo.png.sh" "aab")) (Some "2"%string).

End MoreExamples.

(** ** Reading a hex code back *)

Definition hex_digit_value (c : ascii) : option Z :=
  let n := nat_of_ascii c in
  if (48 <=? n) && (n <=? 57) then Some (Z.of_nat (n - 48))
  else if (97 <=? n) && (n <=? 102) then Some (Z.of_nat (n - 87))
  else None.

(** The value of two lowercase hex digits. *)
Definition hex_byte_value (a b : ascii) : option Z :=
  match hex_digit_value a, hex_digit_value b with
  | Some x, Some y => Some (16 * x + y)%Z
  | _, _ => None
  end.

(** The colour of ['#rrggbb']. *)
Definition parse_hexcode (s : string) : option color :=
  match s with
  | String "#" (String r1 (String r2 (String g1 (String g2
      (String b1 (String b2 EmptyString)))))) =>
      match hex_byte_value r1 r2, hex_byte_value g1 g2, hex_byte_value b1 b2 with
      | Some r, Some g, Some b => Some (r, g, b)
      | _, _, _ => None
      end
  | _ => None
  end.

(** Whether the two hex digits of a byte read back as the byte. *)
Definition reads_back (v : Z) : bool :=
  match format_02x v with
  | String a (String b EmptyString) => bool_decide (hex_byte_value a b = Some v)
  | _ => false
  end.

(** The channels of a colour are bytes. *)
Definition byte_color (c : color) : Prop :=
  (0 ≤ c.1.1 ≤ 255 ∧ 0 ≤ c.1.2 ≤ 255 ∧ 0 ≤ c.2 ≤ 255)%Z.

(** ** Running blocks on a store [h ++ l] *)

Lemma bind_assoc {A B C} (m : M A) (f : A → M B) (g : B → M C) h :
  ((m ≫= f) ≫= g) h = (m ≫= λ x, f x ≫= g) h.
Proof. unfold mbind, M_bind. by destruct (m h) as [[a|e] h']. Qed.

Lemma bind_ret {A B} (a : A) (f : A → M B) h : (mret a ≫= f) h = f a h.
Proof. reflexivity. Qed.

Lemma bind_lift_returned {A B} (a : A) (f : A → M B) h :
  (lift (Returned a) ≫= f) h = f a h.
Proof. reflexivity. Qed.

Lemma bind_alloc {B} im (f : ref → M B) (h l : heap) :
  (alloc im ≫= f) (h ++ l) = f (length h + length l) (h ++ (l ++ [im])).
Proof. unfold mbind, M_bind, alloc. by rewrite length_app, (assoc_L (++)). Qed.

Lemma bind_deref_any {B} r (f : Image → M B) (h : heap) :
  (deref r ≫= f) h = f (h !!! r) h.
Proof. reflexivity. Qed.

Lemma bind_alloc_first {B} im (f : ref → M B) (h : heap) :
  (alloc im ≫= f) h = f (length h + 0) (h ++ [im]).
Proof. unfold mbind, M_bind, alloc. by rewrite Nat.add_0_r. Qed.

Lemma bind_deref_new {B} i (f : Image → M B) (h l : heap) :
  (deref (length h + i) ≫= f) (h ++ l) = f (l !!! i) (h ++ l).
Proof.
  unfold mbind, M_bind, deref.
  rewrite !list_lookup_total_alt, lookup_app_r by lia.
  by replace (length h + i - length h) with i by lia.
Qed.

Lemma bind_assign_new {B} i im (f : () → M B) (h l : heap) :
  (assign (length h + i) im ≫= f) (h ++ l) = f () (h ++ <[i := im]> l).
Proof. unfold mbind, M_bind, assign. by rewrite insert_app_r. Qed.

(** One step of a block on the store [h ++ l], [l] the objects of the call. *)
Ltac run_step :=
  first
    [ rewrite bind_assoc
    | rewrite bind_ret
    | rewrite bind_lift_returned
    | rewrite bind_alloc
    | rewrite bind_deref_new
    | rewrite bind_assign_new ];
  cbn [length app lookup_total list_lookup_total insert list_insert
       bands convert_RGBA data fmap list_fmap alloc_all last getitem_last].

(** The whole call: what it returns, and the store it leaves. *)
Lemma extract_palette_pillow_run_total `{lib : Imaging} h p k bound :
  extract_palette_pillow p k bound h =
  (palette_of (h !!! p) k bound, h ++ allocated (h !!! p) k bound).
Proof.
  unfold extract_palette_pillow, Image_copy, Image_thumbnail.
  rewrite bind_assoc, bind_deref_any. generalize (h !!! p). intros im.
  rewrite bind_alloc_first.
  do 4 run_step.
  set (t := thumbnail_image im bound).
  unfold allocated, palette_of, used_entries, paletted. fold t.
  unfold Image_convert_P_adaptive, Image_getpalette, Image_getcolors.
  destruct (has_transparency t) eqn:Ht.
  - unfold Image_new_RGB, Image_convert_RGBA, Image_split, Image_paste.
    repeat run_step.
    change (size (convert_RGBA t)) with (size t).
    unfold rank_and_format, flatten_image, alpha_band. rewrite Ht.
    by case_bool_decide.
  - unfold Image_convert_RGB. repeat run_step.
    unfold rank_and_format, flatten_image. rewrite Ht.
    by case_bool_decide.
Qed.

Lemma extract_palette_pillow_run `{lib : Imaging} h p im k bound :
  h !! p = Some im →
  extract_palette_pillow p k bound h =
  (palette_of im k bound, h ++ allocated im k bound).
Proof.
  intros Hp%list_lookup_total_correct. subst im.
  apply extract_palette_pillow_run_total.
Qed.

(** ** Counting: [getcolors] *)

Section Counting.

Lemma histogram_nil i : histogram [] i = 0.
Proof. reflexivity. Qed.

Lemma histogram_cons x px i :
  histogram (x :: px) i = (if decide (x = i) then 1 else 0) + histogram px i.
Proof.
  unfold histogram. rewrite filter_cons. by case_decide.
Qed.

Lemma histogram_pos px i : histogram px i ≠ 0 ↔ i ∈ px.
Proof.
  induction px as [|x px IH].
  - rewrite histogram_nil. split; [done|]. by intros ?%elem_of_nil.
  - rewrite histogram_cons, elem_of_cons. case_decide; subst.
    + split; [by left | lia].
    + rewrite <- IH. split; [intros; right; lia | intros [->|]; [done|lia]].
Qed.

Lemma length_filter_lt_S n (px : list nat) :
  length (filter (λ j, j < S n) px) =
  length (filter (λ j, j < n) px) + histogram px n.
Proof.
  induction px as [|x px IH]; [done|].
  rewrite histogram_cons, !filter_cons.
  repeat case_decide; simpl; lia.
Qed.

(** The bins below [n] hold the pixels whose index is below [n]. *)
Lemma sum_histogram n px :
  sum_list (histogram px <$> seq 0 n) = length (filter (λ j, j < n) px).
Proof.
  induction n as [|n IH].
  - simpl. induction px as [|x px IHpx]; [done|].
    rewrite filter_cons. by case_decide; [lia|].
  - rewrite seq_S, fmap_app, sum_list_with_app, IH, length_filter_lt_S.
    simpl. lia.
Qed.

Lemma sum_list_filter_nonzero (f : nat → nat) l :
  sum_list (f <$> filter (λ i, f i ≠ 0) l) = sum_list (f <$> l).
Proof.
  induction l as [|x l IH]; [done|].
  rewrite filter_cons. case_decide; csimpl; lia.
Qed.

Lemma getcolors_fst px :
  fst <$> getcolors_pixels px =
  histogram px <$> filter (λ i, histogram px i ≠ 0) (seq 0 256).
Proof. unfold getcolors_pixels. by rewrite <- list_fmap_compose. Qed.

Lemma getcolors_snd px :
  snd <$> getcolors_pixels px = filter (λ i, histogram px i ≠ 0) (seq 0 256).
Proof.
  unfold getcolors_pixels. rewrite <- list_fmap_compose.
  apply list_fmap_id.
Qed.

(** Every pixel of a [P] image is counted once. *)
Lemma getcolors_sum px :
  Forall (λ i, i < 256) px → sum_counts (getcolors_pixels px) = length px.
Proof.
  intros Hpx. unfold sum_counts.
  rewrite getcolors_fst, sum_list_filter_nonzero, sum_histogram.
  f_equal. induction Hpx as [|x px Hx _ IH]; [done|].
  by rewrite filter_cons_True, IH.
Qed.

(** Only used entries are listed. *)
Lemma getcolors_count_pos px c i : (c, i) ∈ getcolors_pixels px → 0 < c.
Proof.
  unfold getcolors_pixels.
  intros (j & [= -> ->] & Hj%list_elem_of_filter)%list_elem_of_fmap.
  lia.
Qed.

Lemma getcolors_index_used px c i : (c, i) ∈ getcolors_pixels px → i ∈ px.
Proof.
  unfold getcolors_pixels.
  intros (j & [= -> ->] & [Hj _]%list_elem_of_filter)%list_elem_of_fmap.
  by apply histogram_pos.
Qed.

Lemma getcolors_NoDup px : NoDup (snd <$> getcolors_pixels px).
Proof. rewrite getcolors_snd. apply NoDup_filter, NoDup_seq. Qed.

Lemma getcolors_nil px :
  Forall (λ i, i < 256) px → getcolors_pixels px = [] → px = [].
Proof.
  intros Hpx Hnil. apply getcolors_sum in Hpx.
  rewrite Hnil in Hpx. by apply nil_length_inv.
Qed.

(** There are no more used entries than distinct colours, when the index
    of a pixel is a function of its colour. *)
Lemma getcolors_length_distinct (f : color → nat) (px : list color) :
  length (getcolors_pixels (f <$> px)) ≤ length (remove_dups px).
Proof.
  rewrite <- (length_fmap snd), <- (length_fmap f (remove_dups px)).
  apply submseteq_length, NoDup_submseteq; [apply getcolors_NoDup|].
  intros i (ci & -> & Hci)%list_elem_of_fmap. destruct ci as [c i].
  apply getcolors_index_used in Hci.
  apply list_elem_of_fmap in Hci as (x & -> & Hx).
  apply list_elem_of_fmap. exists x. by rewrite elem_of_remove_dups.
Qed.

End Counting.

(** ** Ranking and formatting: lines 83-117 *)

Global Instance tuple_ge_total : Total tuple_ge.
Proof. intros [a i] [b j]. unfold tuple_ge. simpl. lia. Qed.

Global Instance tuple_ge_trans : Transitive tuple_ge.
Proof. intros [a i] [b j] [c l]. unfold tuple_ge. simpl. lia. Qed.

(** The float that line 107 computes. *)
Section Ranking.
Variable palette : list Z.
Variable color_counts : list (nat * nat).
Variable total : nat.
Hypothesis total_nonzero : total ≠ 0.

Lemma getitem_Some {A} (l : list A) i x : l !! i = Some x → getitem l i = Returned x.
Proof. unfold getitem. by intros ->. Qed.

Lemma getitem_None {A} (l : list A) i : l !! i = None → getitem l i = Raised IndexError.
Proof. unfold getitem. by intros ->. Qed.

Lemma getitem_cases {A} (l : list A) i :
  (∃ x, getitem l i = Returned x) ∨ getitem l i = Raised IndexError.
Proof. unfold getitem. destruct (l !! i); eauto. Qed.

Lemma truediv_nonzero a : truediv a (Z.of_nat total) =
  Returned (PrimFloat.div (float_of_int a) (float_of_int (Z.of_nat total))).
Proof.
  unfold truediv. destruct (Z.eqb_spec (Z.of_nat total) 0); [lia|done].
Qed.

Lemma loop_body_returned i ci :
  color_counts !! i = Some ci → stored palette ci →
  loop_body palette color_counts total i =
  Returned (color_record_of palette total ci).
Proof.
  intros Hi Hci. destruct ci as [c idx]. unfold stored in Hci. simpl in Hci.
  assert (∀ j, j < 3 →
    getitem palette (idx * 3 + j) = Returned (palette !!! (idx * 3 + j))) as Hpal.
  { intros j Hj. apply getitem_Some, list_lookup_lookup_total_lt. lia. }
  unfold loop_body. rewrite (getitem_Some _ _ _ Hi). cbn.
  rewrite <- (Nat.add_0_r (idx * 3)) at 1.
  rewrite !Hpal by lia. cbn. rewrite truediv_nonzero. cbn.
  unfold color_record_of, palette_entry. cbn. by rewrite Nat.add_0_r.
Qed.

Lemma loop_body_cases i :
  (∃ rec, loop_body palette color_counts total i = Returned rec)
  ∨ loop_body palette color_counts total i = Raised IndexError.
Proof.
  unfold loop_body.
  destruct (getitem_cases color_counts i) as [[[c idx] ->]| ->]; [|by right].
  cbn.
  destruct (getitem_cases palette (idx * 3)) as [[r ->]| ->]; [|by right].
  cbn.
  destruct (getitem_cases palette (idx * 3 + 1)) as [[g ->]| ->]; [|by right].
  cbn.
  destruct (getitem_cases palette (idx * 3 + 2)) as [[b ->]| ->]; [|by right].
  cbn. rewrite truediv_nonzero. cbn. eauto.
Qed.

(** The loop over [s, s+1, ..., s+n-1] when [color_counts] is long enough. *)
Lemma loop_returned n : ∀ s results,
  s + n ≤ length color_counts →
  Forall (stored palette) color_counts →
  loop palette color_counts total (seq s n) results =
  Returned (results ++
            (color_record_of palette total <$> take n (drop s color_counts))).
Proof.
  induction n as [|n IH]; intros s results Hlen Hst.
  - cbn. by rewrite app_nil_r.
  - destruct (lookup_lt_is_Some_2 color_counts s) as [ci Hci]; [lia|].
    cbn [seq loop].
    rewrite (loop_body_returned s ci Hci)
      by (by eapply Forall_lookup_1 in Hst).
    cbn. rewrite IH by (done || lia).
    rewrite (drop_S _ _ _ Hci). cbn. by rewrite <- (assoc_L (++)).
Qed.

(** The loop when it runs past the end of [color_counts]. *)
Lemma loop_index_error n : ∀ s results,
  s ≤ length color_counts < s + n →
  loop palette color_counts total (seq s n) results = Raised IndexError.
Proof.
  induction n as [|n IH]; intros s results Hlen; [lia|].
  cbn [seq loop].
  destruct (decide (s = length color_counts)) as [->|Hs].
  - unfold loop_body. by rewrite getitem_None by (by apply lookup_ge_None_2).
  - destruct (loop_body_cases s) as [[rec ->]| ->]; [|done].
    cbn. apply IH. lia.
Qed.

End Ranking.

Section RankAndFormat.
Variable palette : list Z.
Variable color_counts : list (nat * nat).
Hypothesis counts_pos : Forall (λ ci, 0 < ci.1) color_counts.

Lemma sort_reverse_perm l : sort_reverse l ≡ₚ l.
Proof. apply merge_sort_Permutation. Qed.

Lemma sort_reverse_sorted l : StronglySorted tuple_ge (sort_reverse l).
Proof. apply StronglySorted_merge_sort; apply _. Qed.

Lemma sort_reverse_length l : length (sort_reverse l) = length l.
Proof. by rewrite sort_reverse_perm. Qed.

Lemma sum_counts_sort l : sum_counts (sort_reverse l) = sum_counts l.
Proof. unfold sum_counts. by rewrite sort_reverse_perm. Qed.

Lemma sum_counts_nonzero : color_counts ≠ [] → sum_counts color_counts ≠ 0.
Proof.
  destruct counts_pos as [|[c i] l Hc _]; [done|].
  intros _. unfold sum_counts. csimpl. simpl in Hc. lia.
Qed.

Lemma rank_and_format_nil k : rank_and_format palette [] k = Returned [].
Proof. reflexivity. Qed.

(** At least [k] used entries: the first [k] of the ranking are formatted. *)
Lemma rank_and_format_returned k :
  color_counts ≠ [] → k ≤ length color_counts →
  Forall (stored palette) color_counts →
  rank_and_format palette color_counts k =
  Returned (color_record_of palette (sum_counts color_counts)
              <$> take k (sort_reverse color_counts)).
Proof.
  intros Hne Hk Hst. unfold rank_and_format.
  rewrite bool_decide_eq_false_2 by done.
  rewrite sum_counts_sort, loop_returned.
  - by rewrite drop_0.
  - by apply sum_counts_nonzero.
  - rewrite sort_reverse_length. lia.
  - by rewrite sort_reverse_perm.
Qed.

(** Fewer than [k] used entries: [color_counts[i]] is read out of range. *)
Lemma rank_and_format_index_error k :
  color_counts ≠ [] → length color_counts < k →
  rank_and_format palette color_counts k = Raised IndexError.
Proof.
  intros Hne Hk. unfold rank_and_format.
  rewrite bool_decide_eq_false_2 by done.
  apply loop_index_error.
  - rewrite sum_counts_sort. by apply sum_counts_nonzero.
  - rewrite sort_reverse_length. lia.
Qed.

End RankAndFormat.

(** ** The reference implementation meets the contract *)

Module ReferenceFacts.
Import Reference.

Lemma length_flat_palette cs : length (flat_palette cs) = 3 * length cs.
Proof.
  unfold flat_palette. induction cs as [|c cs IH]; [done|].
  cbn [mbind list_bind] in *. rewrite length_app, IH. simpl. lia.
Qed.

Lemma index_of_lt c cs : c ∈ cs → index_of c cs < length cs.
Proof.
  intros Hc. unfold index_of.
  destruct (list_find_elem_of (λ x, x = c) cs c Hc eq_refl) as [[i y] Hf].
  rewrite Hf. simpl. apply list_find_Some in Hf as (Hi & _ & _).
  by eapply lookup_lt_Some.
Qed.

Lemma box_of_lt cs k c :
  1 ≤ k → c ∈ cs → box_of cs k c < min k (length cs).
Proof.
  intros Hk Hc%index_of_lt. unfold box_of. case_decide; [lia|].
  rewrite Nat.min_l by lia.
  apply Nat.Div0.div_lt_upper_bound. nia.
Qed.

Lemma quantizer_contract : QuantizerContract imaging.
Proof.
  split.
  - intros px k _. simpl. unfold box_quantize. simpl. eauto.
  - intros px k i [Hk _]. simpl. unfold box_quantize. simpl.
    intros (c & -> & Hc)%list_elem_of_fmap.
    rewrite length_flat_palette, length_fmap, length_seq.
    assert (box_of (remove_dups px) k c < min k (length (remove_dups px))).
    { apply box_of_lt; [done|]. by apply elem_of_remove_dups. }
    lia.
Qed.

End ReferenceFacts.

(** ** The extractor under the quantizer's contract *)

Section Extractor.
Context `{lib : Imaging} `{!QuantizerContract lib}.
Variable im : Image.
Variables k bound : nat.
Hypothesis k_valid : 1 ≤ k ≤ 256.

Let px := flattened im bound.
Let palette := (quantize px k).1.
Let indices := (quantize px k).2.

Lemma paletted_palette : image_palette (paletted im k bound) = palette.
Proof.
  unfold paletted, quantize_image, palette, px, flattened.
  by destruct (quantize _ k).
Qed.

Lemma used_entries_getcolors : used_entries im k bound = getcolors_pixels indices.
Proof.
  unfold used_entries, paletted, quantize_image, indices, px, flattened.
  by destruct (quantize _ k).
Qed.

Lemma indices_length : length indices = length px.
Proof.
  destruct (quantize_assign px k k_valid) as [f Hf].
  unfold indices. by rewrite Hf, length_fmap.
Qed.

Lemma indices_bound : Forall (λ i, i < 256) indices.
Proof.
  apply Forall_forall. intros i Hi.
  destruct (quantize_index_bound px k i k_valid Hi). lia.
Qed.

Lemma used_counts_pos : Forall (λ ci, 0 < ci.1) (used_entries im k bound).
Proof.
  rewrite used_entries_getcolors. apply Forall_forall. intros [c i] Hci.
  by eapply getcolors_count_pos.
Qed.

Lemma used_stored : Forall (stored palette) (used_entries im k bound).
Proof.
  rewrite used_entries_getcolors. apply Forall_forall. intros [c i] Hci.
  apply getcolors_index_used in Hci.
  by destruct (quantize_index_bound px k i k_valid Hci).
Qed.

(** [total] at line 90 is the number of pixels that were quantized. *)
Lemma used_total : sum_counts (used_entries im k bound) = length px.
Proof.
  rewrite used_entries_getcolors, getcolors_sum by apply indices_bound.
  apply indices_length.
Qed.

Lemma used_nil : used_entries im k bound = [] ↔ px = [].
Proof.
  split.
  - intros Hnil. apply nil_length_inv. by rewrite <- used_total, Hnil.
  - intros Hpx. rewrite used_entries_getcolors.
    assert (indices = []) as ->; [|done].
    apply nil_length_inv. by rewrite indices_length, Hpx.
Qed.

Lemma used_length_distinct :
  length (used_entries im k bound) ≤ length (remove_dups px).
Proof.
  rewrite used_entries_getcolors.
  destruct (quantize_assign px k k_valid) as [f Hf].
  unfold indices. rewrite Hf. apply getcolors_length_distinct.
Qed.

Lemma used_length_k : length (used_entries im k bound) ≤ k.
Proof.
  rewrite used_entries_getcolors.
  rewrite <- (length_fmap snd).
  transitivity (length (seq 0 k)); [|by rewrite length_seq].
  apply submseteq_length, NoDup_submseteq; [apply getcolors_NoDup|].
  intros i (ci & -> & Hci)%list_elem_of_fmap. destruct ci as [c i].
  apply getcolors_index_used in Hci.
  destruct (quantize_index_bound px k i k_valid Hci).
  apply elem_of_seq. simpl. lia.
Qed.

(** When the call returns, and what. *)
Lemma palette_of_returned :
  used_entries im k bound = [] ∨ k ≤ length (used_entries im k bound) →
  palette_of im k bound = Returned (ranked_records im k bound).
Proof.
  unfold palette_of, ranked_records. rewrite paletted_palette.
  intros [Hnil|Hk].
  - rewrite Hnil. cbn. by destruct k.
  - destruct (decide (used_entries im k bound = [])) as [Hnil|Hne].
    { rewrite Hnil. cbn. by destruct k. }
    rewrite rank_and_format_returned, used_total;
      auto using used_counts_pos, used_stored.
Qed.

(** When the call raises. *)
Lemma palette_of_index_error :
  px ≠ [] → length (used_entries im k bound) < k →
  palette_of im k bound = Raised IndexError.
Proof.
  intros Hpx Hk. unfold palette_of.
  apply rank_and_format_index_error; [apply used_counts_pos| |done].
  by rewrite used_nil.
Qed.

Lemma palette_of_inv rs :
  palette_of im k bound = Returned rs →
  rs = ranked_records im k bound
  ∧ (used_entries im k bound = [] ∨ k ≤ length (used_entries im k bound)).
Proof.
  intros Hrs.
  destruct (decide (used_entries im k bound = [])) as [Hnil|Hne].
  { rewrite palette_of_returned in Hrs by auto. split; [congruence|auto]. }
  destruct (decide (k ≤ length (used_entries im k bound))) as [Hk|Hk].
  { rewrite palette_of_returned in Hrs by auto. split; [congruence|auto]. }
  rewrite palette_of_index_error in Hrs; [done| |lia].
  by rewrite <- used_nil.
Qed.

End Extractor.

(** ** The ranking: order and sums *)

Section Ranked.
Variable color_counts : list (nat * nat).
Hypothesis counts_pos : Forall (λ ci, 0 < ci.1) color_counts.
Hypothesis indices_NoDup : NoDup (snd <$> color_counts).

Lemma StronglySorted_take {A} (R : relation A) n l :
  StronglySorted R l → StronglySorted R (take n l).
Proof.
  intros Hl. rewrite <- (take_drop n l) in Hl.
  by apply StronglySorted_app_1_l in Hl.
Qed.

Lemma tuple_ge_strict l :
  NoDup (snd <$> l) → StronglySorted tuple_ge l → StronglySorted tuple_gt l.
Proof.
  intros Hnd Hl. induction Hl as [|[c i] l Hl IH Hhd]; [constructor|].
  csimpl in Hnd. apply NoDup_cons in Hnd as [Hi Hnd].
  constructor; [by apply IH|].
  apply Forall_forall. intros [c' i'] Hin.
  eapply Forall_forall in Hhd; [|done].
  unfold tuple_ge, tuple_gt in *. simpl in *.
  assert (i ≠ i'); [|lia].
  intros ->. apply Hi. apply list_elem_of_fmap. by exists (c', i').
Qed.

(** Ties are ranked by index, the larger index first. *)
Lemma ranking_strict k :
  StronglySorted tuple_gt (take k (sort_reverse color_counts)).
Proof.
  apply StronglySorted_take, tuple_ge_strict; [|apply sort_reverse_sorted].
  by rewrite sort_reverse_perm.
Qed.

Lemma ranking_counts_sorted k :
  StronglySorted (λ a b : nat * nat, b.1 ≤ a.1)
    (take k (sort_reverse color_counts)).
Proof.
  apply StronglySorted_take.
  pose proof (sort_reverse_sorted color_counts) as Hs.
  apply (StronglySorted_fmap id tuple_ge (λ a b : nat * nat, b.1 ≤ a.1)) in Hs.
  - by rewrite list_fmap_id in Hs.
  - intros [] []. unfold tuple_ge. simpl. lia.
Qed.

Lemma sum_counts_take_drop k l :
  sum_counts (take k l) + sum_counts (drop k l) = sum_counts l.
Proof.
  unfold sum_counts.
  by rewrite <- sum_list_with_app, <- fmap_app, take_drop.
Qed.

Lemma sum_counts_zero l :
  Forall (λ ci : nat * nat, 0 < ci.1) l → sum_counts l = 0 → l = [].
Proof.
  destruct 1 as [|[c i] l Hc _]; [done|].
  unfold sum_counts. csimpl. simpl in Hc. lia.
Qed.

(** The selected entries cover the total exactly when all are selected. *)
Lemma ranking_sum k :
  let ranked := take k (sort_reverse color_counts) in
  sum_counts ranked ≤ sum_counts color_counts
  ∧ (sum_counts ranked = sum_counts color_counts
     ↔ length ranked = length color_counts).
Proof.
  intros ranked. subst ranked.
  pose proof (sum_counts_take_drop k (sort_reverse color_counts)) as Hsum.
  rewrite sum_counts_sort in Hsum.
  split; [lia|].
  rewrite length_take, sort_reverse_length. split.
  - intros Heq.
    assert (drop k (sort_reverse color_counts) = []) as Hnil.
    { apply sum_counts_zero; [|lia].
      apply Forall_drop. by rewrite sort_reverse_perm. }
    apply drop_nil_inv in Hnil. rewrite sort_reverse_length in Hnil. lia.
  - intros Hlen.
    rewrite drop_ge in Hsum by (rewrite sort_reverse_length; lia).
    cbn in Hsum. lia.
Qed.

Lemma count_color_record_of palette total (l : list (nat * nat)) :
  count <$> (color_record_of palette total <$> l) = fst <$> l.
Proof. by rewrite <- list_fmap_compose. Qed.

End Ranked.

(** ** Flattening *)

Lemma blend8_transparent bg src : (0 ≤ bg ≤ 255)%Z → blend8 bg src 0 = bg.
Proof.
  intros Hbg. unfold blend8.
  replace (src * 0 + bg * (255 - 0) + 127)%Z with (127 + bg * 255)%Z by lia.
  rewrite Z.div_add by lia. rewrite Z.div_small; lia.
Qed.

Lemma blend8_opaque bg src : (0 ≤ src ≤ 255)%Z → blend8 bg src 255 = src.
Proof.
  intros Hsrc. unfold blend8.
  replace (src * 255 + bg * (255 - 255) + 127)%Z with (127 + src * 255)%Z by lia.
  rewrite Z.div_add by lia. rewrite Z.div_small; lia.
Qed.

Lemma blend_white_transparent src : blend_rgb white src 0 = white.
Proof.
  unfold blend_rgb, white. cbn. by rewrite !blend8_transparent by lia.
Qed.

(** [blend8] is the 8-bit value nearest to the blend of the spec. *)
Lemma blend8_nearest bg src a :
  (Z.abs (255 * blend8 bg src a - (src * a + bg * (255 - a))) ≤ 127)%Z.
Proof.
  unfold blend8. generalize (src * a + bg * (255 - a))%Z. intros x.
  pose proof (Z.div_mod (x + 127) 255). pose proof (Z.mod_pos_bound (x + 127) 255).
  lia.
Qed.

(** Fully transparent pixels over white are white. *)
Lemma blend_over_white_transparent (src : list color) : ∀ alphas : list Z,
  length src = length alphas →
  Forall (λ a, a = 0%Z) alphas →
  zip_with (blend_rgb white) src alphas = replicate (length alphas) white.
Proof.
  induction src as [|c src IH]; intros [|a alphas] Hlen Hzero;
    try done.
  apply Forall_cons in Hzero as [-> Hzero]. cbn.
  rewrite blend_white_transparent, IH; [done| |done].
  simpl in Hlen. lia.
Qed.

Lemma remove_dups_replicate {A} `{EqDecision A} n (x : A) :
  0 < n → remove_dups (replicate n x) = [x].
Proof.
  induction n as [|n IH]; [lia|]. intros _. destruct n as [|n]; [done|].
  cbn [replicate remove_dups] in *.
  destruct (decide_rel elem_of x (x :: replicate n x)) as [_|Hx].
  - apply IH. lia.
  - destruct Hx. apply list_elem_of_here.
Qed.

Lemma length_rgb_pixels im : length (rgb_pixels im) = npixels (data im).
Proof.
  unfold rgb_pixels, npixels. destruct (data im); by rewrite ?length_fmap.
Qed.

Lemma length_alpha_pixels im : length (alpha_pixels im) = npixels (data im).
Proof.
  unfold alpha_pixels, npixels. destruct (data im); by rewrite ?length_fmap.
Qed.

Lemma paste_over_uniform c src : ∀ n mask,
  length src ≤ n →
  paste_pixels (replicate n c) src mask = zip_with (blend_rgb c) src mask.
Proof.
  unfold paste_pixels.
  induction src as [|s src IH]; intros n mask Hn.
  - cbn. by destruct (replicate n c).
  - destruct n as [|n]; [simpl in Hn; lia|].
    destruct mask as [|a mask]; [done|].
    cbn. rewrite IH; [done|]. simpl in Hn. lia.
Qed.

(** With a transparency, every pixel is the source blended over white, the
    weight being the alpha of the source. *)
Lemma flatten_image_blend im :
  has_transparency im = true →
  npixels (data im) = (size im).1 * (size im).2 →
  rgb_pixels (flatten_image im) =
  zip_with (blend_rgb white) (rgb_pixels im) (alpha_pixels im).
Proof.
  intros Ht Hsize. unfold flatten_image. rewrite Ht.
  unfold paste_image, new_RGB, alpha_band, rgb_pixels at 1. cbn.
  rewrite snd_zip by (rewrite length_rgb_pixels, length_alpha_pixels; lia).
  apply paste_over_uniform. rewrite length_rgb_pixels. lia.
Qed.

Lemma flatten_image_nil im : rgb_pixels im = [] → rgb_pixels (flatten_image im) = [].
Proof.
  intros Hnil. unfold flatten_image. destruct (has_transparency im); [|done].
  unfold paste_image, new_RGB, alpha_band, rgb_pixels at 1. cbn.
  unfold paste_pixels. rewrite Hnil. cbn.
  by destruct (replicate _ _).
Qed.

Lemma thumbnail_image_fits `{lib : Imaging} im bound :
  (size im).1 ≤ bound → (size im).2 ≤ bound → thumbnail_image im bound = im.
Proof.
  intros. unfold thumbnail_image. by rewrite bool_decide_eq_true_2.
Qed.

(** ** Properties of [extract_palette_pillow] *)

Lemma StronglySorted_lookup {A} (R : relation A) l i j x y :
  StronglySorted R l → i < j → l !! i = Some x → l !! j = Some y → R x y.
Proof.
  intros Hl. revert i j. induction Hl as [|z l Hl IH Hz]; intros i j Hij Hi Hj.
  - by rewrite lookup_nil in Hi.
  - destruct j as [|j]; [lia|]. simpl in Hj. destruct i as [|i].
    + simplify_eq/=. eapply Forall_forall in Hz; [done|].
      by eapply list_elem_of_lookup_2.
    + simpl in Hi. apply (IH i j); [lia|done..].
Qed.

Section Properties.
Context `{lib : Imaging} {Hq : QuantizerContract lib}.

(** A non-empty image with fewer distinct colours than [k]. *)
Lemma few_colors_index_error im k bound :
  1 ≤ k ≤ 256 →
  flattened im bound ≠ [] →
  length (remove_dups (flattened im bound)) < k →
  palette_of im k bound = Raised IndexError.
Proof.
  intros Hk Hne Hlt. apply palette_of_index_error; [done..|].
  pose proof (used_length_distinct im k bound Hk). lia.
Qed.

(** What a call that returns has returned. *)
Lemma returned_inv (h : heap) p im k bound rs :
  h !! p = Some im → 1 ≤ k ≤ 256 →
  (extract_palette_pillow p k bound h).1 = Returned rs →
  rs = color_record_of (image_palette (paletted im k bound))
         (sum_counts (used_entries im k bound))
       <$> take k (sort_reverse (used_entries im k bound)).
Proof.
  intros Hp Hk. rewrite (extract_palette_pillow_run _ _ _ _ _ Hp). simpl.
  intros [-> _]%palette_of_inv; [|done].
  unfold ranked_records. by rewrite paletted_palette, used_total.
Qed.

Lemma returned_when (h : heap) p im k bound :
  h !! p = Some im → 1 ≤ k ≤ 256 →
  used_entries im k bound = [] ∨ k ≤ length (used_entries im k bound) →
  ∃ rs, (extract_palette_pillow p k bound h).1 = Returned rs.
Proof.
  intros Hp Hk Hused. rewrite (extract_palette_pillow_run _ _ _ _ _ Hp). simpl.
  rewrite palette_of_returned by done. eauto.
Qed.

(** No more records than [k], nor than distinct colours. *)
Lemma returned_length (h : heap) p im k bound rs :
  h !! p = Some im → 1 ≤ k ≤ 256 →
  (extract_palette_pillow p k bound h).1 = Returned rs →
  length rs ≤ k ∧ length rs ≤ length (remove_dups (flattened im bound)).
Proof.
  intros Hp Hk ->%(returned_inv _ _ _ _ _ _ Hp Hk).
  rewrite length_fmap, length_take, sort_reverse_length.
  pose proof (used_length_distinct im k bound Hk). lia.
Qed.

End Properties.

(** ** The claims *)

Section Claims.
Context `{lib : Imaging} {Hq : QuantizerContract lib}.

(** C1 (the code departs from the claim).  A non-empty image whose
    downscaled, flattened pixels have exactly one distinct colour makes the
    call raise [IndexError] for every [k] from 2 to 20: one palette entry is
    used, and the loop of line 95 reads [color_counts[1]].  No list with one
    record is returned. *)
Theorem solid_image_raises_IndexError (h : heap) p im k bound :
  h !! p = Some im →
  length (remove_dups (flattened im bound)) = 1 →
  2 ≤ k ≤ 20 →
  (extract_palette_pillow p k bound h).1 = Raised IndexError.
Proof.
  intros Hp Hone Hk. rewrite (extract_palette_pillow_run _ _ _ _ _ Hp). simpl.
  apply few_colors_index_error; [lia| |lia].
  intros Hnil. by rewrite Hnil in Hone.
Qed.

(** C2 (the code departs from the claim).  A list that the call returns has
    at most [k] records and at most as many as the downscaled, flattened
    image has distinct colours.  But when the quantized image of a non-empty
    image uses fewer than [k] palette entries, the call does not return fewer
    than [k] records: it raises [IndexError]. *)
Theorem fewer_used_entries_raises_IndexError (h : heap) p im k bound :
  h !! p = Some im →
  1 ≤ k ≤ 20 →
  (∀ rs, (extract_palette_pillow p k bound h).1 = Returned rs →
         length rs ≤ k
         ∧ length rs ≤ length (remove_dups (flattened im bound)))
  ∧ (flattened im bound ≠ [] →
     length (used_entries im k bound) < k →
     (extract_palette_pillow p k bound h).1 = Raised IndexError).
Proof.
  intros Hp Hk. split.
  - intros rs Hrs. eapply returned_length; [done| |done]. lia.
  - intros Hne Hlt.
    rewrite (extract_palette_pillow_run _ _ _ _ _ Hp). simpl.
    apply palette_of_index_error; [lia|done..].
Qed.

(** C3, as amended.  An image without pixels, no side of which exceeds the
    bound of the downscale, is not rejected: the call runs the pipeline
    (it allocates the copy, the RGB image and the paletted image at least),
    finds no used palette entry and returns the empty list. *)
Theorem empty_image_returns_empty_list (h : heap) p im k bound :
  h !! p = Some im →
  npixels (data im) = 0 →
  (size im).1 ≤ bound → (size im).2 ≤ bound →
  1 ≤ k ≤ 256 →
  (extract_palette_pillow p k bound h).1 = Returned []
  ∧ length h + 3 ≤ length (extract_palette_pillow p k bound h).2.
Proof.
  intros Hp Hzero Hw Hh Hk.
  rewrite (extract_palette_pillow_run _ _ _ _ _ Hp). simpl. split.
  - assert (flattened im bound = []) as Hnil.
    { unfold flattened. rewrite thumbnail_image_fits by done.
      apply flatten_image_nil, nil_length_inv. by rewrite length_rgb_pixels. }
    pose proof (proj2 (used_nil im k bound Hk) Hnil) as Hused.
    rewrite palette_of_returned by auto.
    unfold ranked_records. rewrite Hused.
    change (sort_reverse []) with (@nil (nat * nat)). by rewrite take_nil.
  - rewrite length_app. unfold allocated.
    destruct (has_transparency _); rewrite ?length_app; simpl; lia.
Qed.

(** C4 (the code departs from the claim).  With [k = 1], a non-empty image
    (one of two colours among them) yields exactly one record.  The record
    stands for all the pixels: its count is the number of pixels of the
    downscaled image, both colours together, and its colour is not looked up
    in the image: it is entry 0 of the palette of line 76, the one colour
    that the quantizer made for the whole image.  The claim, and the comment
    of line 75, expect the colour with the higher count there; on three black
    pixels and a white one the record has colour (64, 64, 64) and count 4. *)
Theorem one_color_requested_returns_single_entry (h : heap) p im bound :
  h !! p = Some im →
  flattened im bound ≠ [] →
  let n := length (flattened im bound) in
  let palette := (quantize (flattened im bound) 1).1 in
  (extract_palette_pillow p 1 bound h).1 =
  Returned [mkColorRecord (hexcode_of (palette_entry palette 0))
              (palette_entry palette 0) n (percent_of n n)].
Proof.
  intros Hp Hne n palette.
  assert (1 ≤ 1 ≤ 256) as Hk by lia.
  rewrite (extract_palette_pillow_run _ _ _ _ _ Hp). simpl.
  pose proof (used_length_k im 1 bound Hk) as Hle.
  pose proof (used_total im 1 bound Hk) as Htotal.
  pose proof (used_stored im 1 bound Hk) as Hst.
  pose proof (used_entries_getcolors im 1 bound) as Hget.
  destruct (used_entries im 1 bound) as [|[c i] [|? ?]] eqn:Hused;
    [by apply used_nil in Hused| |simpl in Hle; lia].
  assert (i = 0) as ->.
  { assert ((c, i) ∈ getcolors_pixels (quantize (flattened im bound) 1).2) as Hin
      by (rewrite <- Hget; apply list_elem_of_here).
    apply getcolors_index_used in Hin.
    destruct (quantize_index_bound _ 1 i Hk Hin). lia. }
  assert (c = n) as ->.
  { unfold sum_counts in Htotal. csimpl in Htotal. subst n. lia. }
  rewrite palette_of_returned by (done || (right; rewrite Hused; simpl; lia)).
  unfold ranked_records. by rewrite Hused.
Qed.

(** C5 (the code departs from the claim).  An image with a transparency is
    flattened onto white: every pixel is the blend of the source over white,
    weighted by the alpha of the source.  A fully transparent image, the 2x2
    one among them, becomes all white; the call then raises [IndexError] for
    every [k] from 2 to 20, the default 6 among them, instead of returning
    the white record. *)
Theorem transparent_image_flattens_to_white_then_raises
    (h : heap) p im k bound :
  h !! p = Some im →
  has_transparency im = true →
  npixels (data im) = (size im).1 * (size im).2 →
  (size im).1 ≤ bound → (size im).2 ≤ bound →
  0 < npixels (data im) →
  Forall (λ a, a = 0%Z) (alpha_pixels im) →
  2 ≤ k ≤ 20 →
  flattened im bound =
    zip_with (blend_rgb white) (rgb_pixels im) (alpha_pixels im)
  ∧ flattened im bound = replicate (npixels (data im)) white
  ∧ (extract_palette_pillow p k bound h).1 = Raised IndexError.
Proof.
  intros Hp Ht Hsize Hw Hh Hpos Halpha Hk.
  assert (flattened im bound =
          zip_with (blend_rgb white) (rgb_pixels im) (alpha_pixels im)) as Hflat.
  { unfold flattened. rewrite thumbnail_image_fits by done.
    by apply flatten_image_blend. }
  assert (flattened im bound = replicate (npixels (data im)) white) as Hwhite.
  { rewrite Hflat, <- (length_alpha_pixels im).
    apply blend_over_white_transparent; [|done].
    by rewrite length_rgb_pixels, length_alpha_pixels. }
  split; [done|]. split; [done|].
  rewrite (extract_palette_pillow_run _ _ _ _ _ Hp). simpl.
  apply few_colors_index_error; rewrite ?Hwhite; [lia| |].
  - destruct (npixels (data im)); [lia|done].
  - rewrite remove_dups_replicate by lia. simpl. lia.
Qed.

(** C6.  Every record of a returned list has
    [percent = round(count / total * 100, 2)], with [total] the sum of the
    counts of all used palette entries; and the call returns whenever no
    entry or at least [k] entries are used. *)
Theorem percent_is_rounded_share (h : heap) p im k bound :
  h !! p = Some im →
  1 ≤ k ≤ 256 →
  let used := used_entries im k bound in
  let total := sum_counts used in
  (used = [] ∨ k ≤ length used →
   ∃ rs, (extract_palette_pillow p k bound h).1 = Returned rs)
  ∧ ∀ rs r,
      (extract_palette_pillow p k bound h).1 = Returned rs → r ∈ rs →
      percent r =
      round2 (PrimFloat.mul
                (PrimFloat.div (float_of_int (Z.of_nat (count r)))
                               (float_of_int (Z.of_nat total)))
                (float_of_int 100)).
Proof.
  intros Hp Hk used total. split; [by apply returned_when|].
  intros rs r ->%(returned_inv _ _ _ _ _ _ Hp Hk).
  by intros (ci & -> & _)%list_elem_of_fmap.
Qed.

(** C7.  A returned list is sorted by count, non-increasing: each record
    has a count at least that of the next; and the call returns whenever no
    entry or at least [k] entries are used. *)
Theorem result_sorted_by_count (h : heap) p im k bound :
  h !! p = Some im →
  1 ≤ k ≤ 256 →
  let used := used_entries im k bound in
  (used = [] ∨ k ≤ length used →
   ∃ rs, (extract_palette_pillow p k bound h).1 = Returned rs)
  ∧ ∀ rs,
      (extract_palette_pillow p k bound h).1 = Returned rs →
      Sorted (λ r1 r2, count r2 ≤ count r1) rs.
Proof.
  intros Hp Hk used. split; [by apply returned_when|].
  intros rs ->%(returned_inv _ _ _ _ _ _ Hp Hk).
  apply StronglySorted_Sorted.
  eapply StronglySorted_fmap; [|apply ranking_counts_sorted].
  by intros [] [].
Qed.

(** C8.  The counts of a returned list sum to at most [total], the sum of
    the counts of all used palette entries, and to [total] exactly when there
    are as many records as used entries; and the call returns whenever no
    entry or at least [k] entries are used. *)
Theorem result_counts_sum (h : heap) p im k bound :
  h !! p = Some im →
  1 ≤ k ≤ 256 →
  let used := used_entries im k bound in
  let total := sum_counts used in
  (used = [] ∨ k ≤ length used →
   ∃ rs, (extract_palette_pillow p k bound h).1 = Returned rs)
  ∧ ∀ rs,
      (extract_palette_pillow p k bound h).1 = Returned rs →
      sum_list (count <$> rs) ≤ total
      ∧ (sum_list (count <$> rs) = total ↔ length rs = length used).
Proof.
  intros Hp Hk used total. split; [by apply returned_when|].
  intros rs ->%(returned_inv _ _ _ _ _ _ Hp Hk).
  rewrite count_color_record_of, length_fmap.
  apply ranking_sum, used_counts_pos.
Qed.

(** C10.  The records of a returned list are the first entries of the
    ranking of the used palette entries, in which an entry comes before
    another when its count is larger or, the counts being equal, when its
    palette index is larger; and the call returns whenever no entry or at
    least [k] entries are used. *)
Theorem ties_ranked_by_index_descending (h : heap) p im k bound :
  h !! p = Some im →
  1 ≤ k ≤ 256 →
  let used := used_entries im k bound in
  let palette := image_palette (paletted im k bound) in
  (used = [] ∨ k ≤ length used →
   ∃ rs, (extract_palette_pillow p k bound h).1 = Returned rs)
  ∧ ∀ rs,
      (extract_palette_pillow p k bound h).1 = Returned rs →
      ∃ ranked : list (nat * nat),
        rs = color_record_of palette (sum_counts used) <$> ranked
        ∧ (∀ ci, ci ∈ ranked → ci ∈ used)
        ∧ ∀ i j ci cj, i < j → ranked !! i = Some ci → ranked !! j = Some cj →
            cj.1 < ci.1 ∨ (cj.1 = ci.1 ∧ cj.2 < ci.2).
Proof.
  intros Hp Hk used palette. split; [by apply returned_when|].
  intros rs ->%(returned_inv _ _ _ _ _ _ Hp Hk).
  exists (take k (sort_reverse used)). split; [done|]. split.
  - intros ci Hci%subseteq_take. by rewrite sort_reverse_perm in Hci.
  - intros i j ci cj Hij Hi Hj.
    eapply (StronglySorted_lookup tuple_gt); [|done..].
    apply ranking_strict. subst used.
    rewrite used_entries_getcolors. apply getcolors_NoDup.
Qed.

End Claims.

(** C9.  The call leaves every image of the store as it was, the argument
    among them: the store after the call is the store before it, followed by
    the images that the call has allocated. *)
Theorem caller_image_not_mutated `{lib : Imaging} (h : heap) p im k bound :
  h !! p = Some im →
  (extract_palette_pillow p k bound h).2 !! p = Some im
  ∧ h `prefix_of` (extract_palette_pillow p k bound h).2.
Proof.
  intros Hp. rewrite (extract_palette_pillow_run _ _ _ _ _ Hp). simpl. split.
  - rewrite lookup_app_l; [done|]. by eapply lookup_lt_Some.
  - by apply prefix_app_r.
Qed.

(** ** The claims on the example images, with the reference library *)

Module OnExamples.
Import Examples.

(** With [k = 1] the solid red image gives the record of the spec. *)
Example red_10x10_one_color :
  (run_reference 0 1 800 [red_10x10]).1 =
  Returned [mkColorRecord "#ff0000" red 100 100%float].
Proof. vm_compute. reflexivity. Qed.

(** As many colours as requested: the tie is ranked white first, its
    palette index being the larger. *)
Example black_white_4x4_two_colors :
  (run_reference 0 2 800 [black_white_4x4]).1 =
  Returned [mkColorRecord "#ffffff" white 8 50%float;
            mkColorRecord "#000000" black 8 50%float].
Proof. vm_compute. reflexivity. Qed.

(** The percents are 50.0, 33.33 and 16.67. *)
Example three_colors_three_requested :
  (run_reference 0 3 800 [three_colors]).1 =
  Returned [mkColorRecord "#008080" teal 3 50%float;
            mkColorRecord "#ff0000" red 2 0x1.0aa3d70a3d70ap+5%float;
            mkColorRecord "#000000" black 1 0x1.0ab851eb851ecp+4%float].
Proof. vm_compute. reflexivity. Qed.

(** More colours than requested: two boxes of two colours each. *)
Example four_colors_two_requested :
  (run_reference 0 2 800 [four_colors]).1 =
  Returned [mkColorRecord "#80c0c0" (128, 192, 192)%Z 2 50%float;
            mkColorRecord "#800000" (128, 0, 0)%Z 2 50%float].
Proof. vm_compute. reflexivity. Qed.

Example transparent_2x2_one_color :
  (run_reference 0 1 800 [transparent_2x2]).1 =
  Returned [mkColorRecord "#ffffff" white 4 100%float].
Proof. vm_compute. reflexivity. Qed.

Lemma solid_image_raises_IndexError_witness :
  (run_reference 0 6 800 [red_10x10]).1 = Raised IndexError.
Proof.
  apply (solid_image_raises_IndexError (Hq := ReferenceFacts.quantizer_contract)
           [red_10x10] 0 red_10x10 6 800).
  - reflexivity.
  - vm_compute. reflexivity.
  - lia.
Defined.

Lemma fewer_used_entries_raises_IndexError_witness :
  (run_reference 0 6 800 [black_white_4x4]).1 = Raised IndexError.
Proof.
  apply (fewer_used_entries_raises_IndexError
           (Hq := ReferenceFacts.quantizer_contract)
           [black_white_4x4] 0 black_white_4x4 6 800).
  - reflexivity.
  - lia.
  - vm_compute. discriminate.
  - vm_compute. lia.
Defined.

(** C3, counterexample: the image without pixels is not rejected. *)
Lemma empty_image_is_not_rejected :
  npixels (data empty_image) = 0
  ∧ (run_reference 0 6 800 [empty_image]).1 = Returned []
  ∧ ¬ ∃ e, (run_reference 0 6 800 [empty_image]).1 = Raised e.
Proof.
  split; [reflexivity|]. split; [vm_compute; reflexivity|].
  intros [e He]. vm_compute in He. discriminate.
Qed.

Lemma empty_image_returns_empty_list_witness :
  (run_reference 0 6 800 [empty_image]).1 = Returned []
  ∧ 1 + 3 ≤ length (run_reference 0 6 800 [empty_image]).2.
Proof.
  apply (empty_image_returns_empty_list
           (Hq := ReferenceFacts.quantizer_contract)
           [empty_image] 0 empty_image 6 800).
  - reflexivity.
  - reflexivity.
  - simpl. lia.
  - simpl. lia.
  - lia.
Defined.

(** C4, the failing input: three black pixels and a white one, [k = 1]; the
    one record counts all four pixels and its colour is the mean of the four,
    neither black, the colour with the higher count, nor white. *)
Lemma one_color_of_two_is_neither :
  ∃ r, (run_reference 0 1 800 [three_black_one_white]).1 = Returned [r]
       ∧ rgb r = (64, 64, 64)%Z ∧ count r = 4
       ∧ rgb r ≠ black ∧ rgb r ≠ white.
Proof.
  eexists. split; [vm_compute; reflexivity|]. cbn. by repeat split.
Qed.

Lemma one_color_requested_returns_single_entry_witness :
  (run_reference 0 1 800 [three_black_one_white]).1 =
  Returned [mkColorRecord "#404040" (64, 64, 64)%Z 4 100%float].
Proof.
  apply (one_color_requested_returns_single_entry
           (Hq := ReferenceFacts.quantizer_contract)
           [three_black_one_white] 0 three_black_one_white 800).
  - reflexivity.
  - vm_compute. discriminate.
Defined.

Lemma transparent_image_flattens_to_white_then_raises_witness :
  flattened (lib := Reference.imaging) transparent_2x2 800 =
    zip_with (blend_rgb white) (rgb_pixels transparent_2x2)
             (alpha_pixels transparent_2x2)
  ∧ flattened (lib := Reference.imaging) transparent_2x2 800 = replicate 4 white
  ∧ (run_reference 0 6 800 [transparent_2x2]).1 = Raised IndexError.
Proof.
  apply (transparent_image_flattens_to_white_then_raises
           (Hq := ReferenceFacts.quantizer_contract)
           [transparent_2x2] 0 transparent_2x2 6 800).
  - reflexivity.
  - reflexivity.
  - reflexivity.
  - simpl. lia.
  - simpl. lia.
  - simpl. lia.
  - repeat constructor.
  - lia.
Defined.

Lemma percent_is_rounded_share_witness :
  ∃ rs, (run_reference 0 3 800 [three_colors]).1 = Returned rs
        ∧ ∀ r, r ∈ rs →
            percent r =
            round2 (PrimFloat.mul
                      (PrimFloat.div (float_of_int (Z.of_nat (count r)))
                                     (float_of_int 6))
                      (float_of_int 100)).
Proof.
  destruct (percent_is_rounded_share (Hq := ReferenceFacts.quantizer_contract)
              [three_colors] 0 three_colors 3 800 eq_refl)
    as [Hret Hpercent]; [lia|].
  destruct Hret as [rs Hrs]; [right; vm_compute; lia|].
  exists rs. split; [done|]. intros r Hr. apply (Hpercent rs r Hrs Hr).
Defined.

Lemma result_sorted_by_count_witness :
  ∃ rs, (run_reference 0 3 800 [three_colors]).1 = Returned rs
        ∧ Sorted (λ r1 r2, count r2 ≤ count r1) rs.
Proof.
  destruct (result_sorted_by_count (Hq := ReferenceFacts.quantizer_contract)
              [three_colors] 0 three_colors 3 800 eq_refl)
    as [Hret Hsorted]; [lia|].
  destruct Hret as [rs Hrs]; [right; vm_compute; lia|].
  exists rs. split; [done|]. by apply Hsorted.
Defined.

Lemma result_counts_sum_witness :
  ∃ rs, (run_reference 0 3 800 [three_colors]).1 = Returned rs
        ∧ sum_list (count <$> rs) ≤ 6
        ∧ (sum_list (count <$> rs) = 6 ↔ length rs = 3).
Proof.
  destruct (result_counts_sum (Hq := ReferenceFacts.quantizer_contract)
              [three_colors] 0 three_colors 3 800 eq_refl)
    as [Hret Hsum]; [lia|].
  destruct Hret as [rs Hrs]; [right; vm_compute; lia|].
  exists rs. split; [done|]. apply (Hsum rs Hrs).
Defined.

Lemma ties_ranked_by_index_descending_witness :
  ∃ rs ranked,
    (run_reference 0 2 800 [black_white_4x4]).1 = Returned rs
    ∧ rs = color_record_of [0; 0; 0; 255; 255; 255]%Z 16 <$> ranked
    ∧ ∀ i j ci cj, i < j → ranked !! i = Some ci → ranked !! j = Some cj →
        cj.1 < ci.1 ∨ (cj.1 = ci.1 ∧ cj.2 < ci.2).
Proof.
  destruct (ties_ranked_by_index_descending
              (Hq := ReferenceFacts.quantizer_contract)
              [black_white_4x4] 0 black_white_4x4 2 800 eq_refl)
    as [Hret Hties]; [lia|].
  destruct Hret as [rs Hrs]; [right; vm_compute; lia|].
  destruct (Hties rs Hrs) as (ranked & Heq & _ & Hlt).
  exists rs, ranked. split; [done|]. split; [exact Heq|exact Hlt].
Defined.

(** The image is wider than the bound: [thumbnail] resamples the copy in
    place and [paste] writes into the white background. *)
Lemma caller_image_not_mutated_witness :
  (run_reference 0 3 2 [glass_4x2]).2 !! 0 = Some glass_4x2
  ∧ [glass_4x2] `prefix_of` (run_reference 0 3 2 [glass_4x2]).2.
Proof.
  apply (caller_image_not_mutated (lib := Reference.imaging)
           [glass_4x2] 0 glass_4x2 3 2).
  reflexivity.
Defined.

End OnExamples.

(** ** [allowed_file]: the extension of an upload *)

Section AllowedFile.

Lemma lower_char_idem c : lower_char (lower_char c) = lower_char c.
Proof. by destruct c as [[] [] [] [] [] [] [] []]. Qed.

Lemma lower_char_eqb_dot c : Ascii.eqb (lower_char c) "." = Ascii.eqb c ".".
Proof. by destruct c as [[] [] [] [] [] [] [] []]. Qed.

Lemma lower_idem s : lower (lower s) = lower s.
Proof. induction s as [|c s IH]; [done|]. simpl. by rewrite lower_char_idem, IH. Qed.

Lemma rpartition_None sep s : rpartition sep s = None ↔ contains sep s = false.
Proof.
  induction s as [|c s IH]; [done|]. simpl.
  destruct (rpartition sep s) as [[head tail]|].
  - split; [done|]. destruct (Ascii.eqb c sep); [done|].
    intros Hc. by apply IH in Hc.
  - destruct (Ascii.eqb c sep); [done|]. split; [|done]. intros _. by apply IH.
Qed.

(** [rpartition] cuts at the last separator. *)
Lemma rpartition_Some sep s head tail :
  rpartition sep s = Some (head, tail) ↔
  s = (head ++ String sep tail)%string ∧ contains sep tail = false.
Proof.
  split.
  - revert head. induction s as [|c s IH]; intros head; [done|]. simpl.
    destruct (rpartition sep s) as [[head' tail']|] eqn:Hs.
    + intros [= <- <-]. destruct (IH head' eq_refl) as [-> Htail]. by split.
    + destruct (Ascii.eqb_spec c sep) as [->|]; [|done].
      intros [= <- <-]. split; [done|]. by apply rpartition_None.
  - intros [-> Htail]. induction head as [|c head IH]; simpl.
    + apply rpartition_None in Htail. by rewrite Htail, Ascii.eqb_refl.
    + by rewrite IH.
Qed.

Lemma rpartition_lower s :
  rpartition "." (lower s) =
  (λ ht : string * string, (lower ht.1, lower ht.2)) <$> rpartition "." s.
Proof.
  induction s as [|c s IH]; [done|]. simpl. rewrite IH.
  destruct (rpartition "." s) as [[head tail]|]; [done|]. simpl.
  rewrite lower_char_eqb_dot. by destruct (Ascii.eqb c ".").
Qed.

(** What [allowed_file] returns, by the last dot of the name. *)
Lemma allowed_file_rpartition filename :
  allowed_file filename =
  Returned match rpartition "." filename with
           | Some (_, ext) => bool_decide (lower ext ∈ ALLOWED_EXTENSIONS)
           | None => false
           end.
Proof.
  unfold allowed_file, rsplit1.
  destruct (rpartition "." filename) as [[head tail]|] eqn:Hpart.
  - destruct (contains "." filename) eqn:Hdot; [done|].
    apply rpartition_None in Hdot. congruence.
  - apply rpartition_None in Hpart. by rewrite Hpart.
Qed.

(** X1.  [allowed_file] never raises: the test ['.' in filename] keeps
    [rsplit('.', 1)[1]] within the list. *)
Theorem allowed_file_never_raises filename :
  ∃ b, allowed_file filename = Returned b.
Proof. rewrite allowed_file_rpartition. eauto. Qed.

(** X2.  A name is allowed exactly when what follows its last dot is,
    in lower case, one of the four extensions. *)
Theorem allowed_file_iff filename :
  allowed_file filename = Returned true ↔
  ∃ stem ext,
    filename = (stem ++ String "." ext)%string
    ∧ contains "." ext = false
    ∧ lower ext ∈ ALLOWED_EXTENSIONS.
Proof.
  rewrite allowed_file_rpartition. split.
  - destruct (rpartition "." filename) as [[stem ext]|] eqn:Hpart; [|done].
    intros [= Hext%bool_decide_eq_true]. apply rpartition_Some in Hpart as [-> Hdot].
    by exists stem, ext.
  - intros (stem & ext & -> & Hdot & Hext).
    rewrite (proj2 (rpartition_Some "." _ stem ext)) by done.
    by rewrite bool_decide_eq_true_2.
Qed.

(** X3.  The answer does not depend on the case of the letters. *)
Theorem allowed_file_case_insensitive a b :
  lower a = lower b → allowed_file a = allowed_file b.
Proof.
  assert (∀ s, allowed_file s = allowed_file (lower s)) as Hlower.
  { intros s. rewrite !allowed_file_rpartition, rpartition_lower.
    destruct (rpartition "." s) as [[stem ext]|]; [|done]. simpl.
    by rewrite lower_idem. }
  intros Hab. by rewrite (Hlower a), (Hlower b), Hab.
Qed.

(** X4.  Only the last extension counts: what precedes the last dot, other
    dots included, plays no part. *)
Theorem allowed_file_last_extension stem ext :
  contains "." ext = false →
  allowed_file (stem ++ String "." ext)%string =
  Returned (bool_decide (lower ext ∈ ALLOWED_EXTENSIONS)).
Proof.
  intros Hdot. rewrite allowed_file_rpartition.
  by rewrite (proj2 (rpartition_Some "." _ stem ext)).
Qed.

End AllowedFile.

(** ** [extract_palette_pillow]: what it raises, what it returns *)

Lemma loop_only_IndexError palette color_counts total range : ∀ results e,
  total ≠ 0 →
  loop palette color_counts total range results = Raised e → e = IndexError.
Proof.
  induction range as [|i range IH]; intros results e Htotal; [done|].
  cbn [loop].
  destruct (loop_body_cases palette color_counts total Htotal i)
    as [[rec ->]| ->]; cbn.
  - by apply IH.
  - congruence.
Qed.

Lemma rank_and_format_only_IndexError palette color_counts k e :
  Forall (λ ci : nat * nat, 0 < ci.1) color_counts →
  rank_and_format palette color_counts k = Raised e → e = IndexError.
Proof.
  intros Hpos. unfold rank_and_format. case_bool_decide as Hnil; [done|].
  apply loop_only_IndexError.
  rewrite sum_counts_sort. by apply sum_counts_nonzero.
Qed.

Lemma image_colors_pos im : Forall (λ ci : nat * nat, 0 < ci.1) (image_colors im).
Proof.
  unfold image_colors. destruct (data im); try by constructor.
  apply Forall_forall. intros [c i] Hci. by eapply getcolors_count_pos.
Qed.

Lemma getcolors_elem px c i :
  (c, i) ∈ getcolors_pixels px ↔ c = histogram px i ∧ i ∈ px ∧ i < 256.
Proof.
  unfold getcolors_pixels. rewrite list_elem_of_fmap. split.
  - intros (j & [= -> ->] & [Hj Hseq]%list_elem_of_filter).
    apply histogram_pos in Hj. apply elem_of_seq in Hseq. split; [done|].
    split; [done|lia].
  - intros (-> & Hi & Hlt). exists i. split; [done|].
    apply list_elem_of_filter. split; [by apply histogram_pos|].
    apply elem_of_seq. lia.
Qed.

(** X10.  On arguments that Pillow accepts, an image and a bound that
    [thumbnail] accepts and between 1 and 256 colours, the only exception
    that leaves [extract_palette_pillow] is [IndexError], whatever the
    resampler and the quantizer return: the division of line 107 never raises
    [ZeroDivisionError], because [total] is a sum of positive counts over a
    list that line 83 found non-empty.  Outside these arguments Pillow
    raises exceptions of its own before line 79 is reached:
    [ZeroDivisionError] in [thumbnail] (line 60) for a bound or a height of
    0, [ValueError] in [convert] (line 76) for another number of colours. *)
Theorem extract_raises_only_IndexError `{lib : Imaging}
    (h : heap) p im k bound e :
  h !! p = Some im →
  thumbnail_accepts im bound →
  1 ≤ k ≤ 256 →
  (extract_palette_pillow p k bound h).1 = Raised e → e = IndexError.
Proof.
  intros Hp _ _. rewrite (extract_palette_pillow_run _ _ _ _ _ Hp). simpl.
  unfold palette_of.
  apply rank_and_format_only_IndexError, image_colors_pos.
Qed.

Section Returns.
Context `{lib : Imaging} {Hq : QuantizerContract lib}.

(** X11.  On arguments that Pillow accepts, an image and a bound that
    [thumbnail] accepts and between 1 and 256 colours, the call raises
    exactly when the downscaled image has pixels and its quantized form uses
    fewer than [k] palette entries; the exception is then [IndexError]. *)
Theorem extract_raises_iff (h : heap) p im k bound e :
  h !! p = Some im →
  thumbnail_accepts im bound →
  1 ≤ k ≤ 256 →
  (extract_palette_pillow p k bound h).1 = Raised e ↔
  e = IndexError
  ∧ flattened im bound ≠ []
  ∧ length (used_entries im k bound) < k.
Proof.
  intros Hp _ Hk. rewrite (extract_palette_pillow_run _ _ _ _ _ Hp). simpl. split.
  - intros Hraised.
    destruct (decide (used_entries im k bound = [])) as [Hnil|Hne].
    { rewrite palette_of_returned in Hraised by auto. done. }
    destruct (decide (k ≤ length (used_entries im k bound))) as [Hle|Hlt].
    { rewrite palette_of_returned in Hraised by auto. done. }
    assert (flattened im bound ≠ []) as Hpx by (by rewrite <- used_nil).
    rewrite palette_of_index_error in Hraised by (done || lia).
    split; [congruence|]. split; [done|lia].
  - intros (-> & Hpx & Hlt). by apply palette_of_index_error.
Qed.

(** A call that returns: nothing, or all [k] used entries. *)
Lemma palette_of_all_or_nothing im k bound rs :
  1 ≤ k ≤ 256 →
  palette_of im k bound = Returned rs →
  (flattened im bound = [] ∧ rs = [])
  ∨ (flattened im bound ≠ []
     ∧ length rs = k
     ∧ length (used_entries im k bound) = k
     ∧ sum_list (count <$> rs) = length (flattened im bound)).
Proof.
  intros Hk [-> Hused]%palette_of_inv; [|done].
  pose proof (used_length_k im k bound Hk) as Hle.
  unfold ranked_records.
  destruct (decide (used_entries im k bound = [])) as [Hnil|Hne].
  - left. split; [by apply (used_nil im k bound Hk)|].
    rewrite Hnil. change (sort_reverse []) with (@nil (nat * nat)).
    by rewrite take_nil.
  - right. destruct Hused as [?|Hge]; [done|].
    split; [by rewrite <- (used_nil im k bound Hk)|].
    rewrite length_fmap, length_take, sort_reverse_length.
    split; [lia|]. split; [lia|].
    rewrite count_color_record_of, take_ge
      by (rewrite sort_reverse_length; lia).
    fold (sum_counts (sort_reverse (used_entries im k bound))).
    rewrite sum_counts_sort. by apply used_total.
Qed.

(** X12.  A call that returns gives all or nothing: the empty list for an
    image without pixels, and otherwise exactly [k] records, one for each
    used palette entry, whose counts add up to the number of pixels of the
    downscaled image. *)
Theorem extract_returns_all_or_nothing (h : heap) p im k bound rs :
  h !! p = Some im →
  1 ≤ k ≤ 256 →
  (extract_palette_pillow p k bound h).1 = Returned rs →
  (flattened im bound = [] ∧ rs = [])
  ∨ (flattened im bound ≠ []
     ∧ length rs = k
     ∧ length (used_entries im k bound) = k
     ∧ sum_list (count <$> rs) = length (flattened im bound)).
Proof.
  intros Hp Hk. rewrite (extract_palette_pillow_run _ _ _ _ _ Hp). simpl.
  by apply palette_of_all_or_nothing.
Qed.

(** X13.  Every record of a returned list stands for one palette index that
    the quantized image uses: its colour is the palette entry of that
    index, and its count is the number of pixels that have that index, at
    least one. *)
Theorem extract_record_meaning (h : heap) p im k bound rs r :
  h !! p = Some im →
  1 ≤ k ≤ 256 →
  (extract_palette_pillow p k bound h).1 = Returned rs →
  r ∈ rs →
  let palette := (quantize (flattened im bound) k).1 in
  let indices := (quantize (flattened im bound) k).2 in
  ∃ idx,
    idx ∈ indices
    ∧ rgb r = palette_entry palette idx
    ∧ count r = histogram indices idx
    ∧ 1 ≤ count r.
Proof.
  intros Hp Hk ->%(returned_inv _ _ _ _ _ _ Hp Hk).
  intros ([c idx] & -> & Hci%subseteq_take)%list_elem_of_fmap palette indices.
  rewrite sort_reverse_perm, used_entries_getcolors in Hci.
  pose proof (getcolors_count_pos _ _ _ Hci) as Hpos.
  apply getcolors_elem in Hci as (-> & Hidx & _).
  exists idx. simpl. by rewrite paletted_palette.
Qed.

End Returns.

(** ** The hex code of a record *)

Lemma reads_back_bytes : forallb reads_back (seqZ 0 256) = true.
Proof. vm_compute. reflexivity. Qed.

Lemma format_02x_byte v :
  (0 ≤ v ≤ 255)%Z →
  ∃ a b, format_02x v = String a (String b EmptyString)
         ∧ hex_byte_value a b = Some v.
Proof.
  intros Hv.
  assert (reads_back v = true) as Hback.
  { pose proof reads_back_bytes as Hall.
    rewrite forallb_forall in Hall. apply Hall.
    apply list_elem_of_In, elem_of_seqZ. lia. }
  unfold reads_back in Hback.
  destruct (format_02x v) as [|a [|b [|? ?]]]; try done.
  apply bool_decide_eq_true in Hback. eauto.
Qed.

Lemma parse_hexcode_of c : byte_color c → parse_hexcode (hexcode_of c) = Some c.
Proof.
  destruct c as [[r g] b]. intros (Hr & Hg & Hb). simpl in *.
  destruct (format_02x_byte r Hr) as (r1 & r2 & Hfr & Hvr).
  destruct (format_02x_byte g Hg) as (g1 & g2 & Hfg & Hvg).
  destruct (format_02x_byte b Hb) as (b1 & b2 & Hfb & Hvb).
  unfold hexcode_of. simpl. rewrite Hfr, Hfg, Hfb. simpl.
  by rewrite Hvr, Hvg, Hvb.
Qed.

Lemma palette_entry_byte palette i :
  Forall (λ v, (0 ≤ v ≤ 255)%Z) palette →
  i * 3 + 2 < length palette →
  byte_color (palette_entry palette i).
Proof.
  intros Hpal Hi.
  assert (∀ j, j < length palette → (0 ≤ palette !!! j ≤ 255)%Z) as Hj.
  { intros j Hlt. by apply (Forall_lookup_total_1 _ palette j Hpal). }
  unfold byte_color, palette_entry. simpl.
  split; [|split]; apply Hj; lia.
Qed.

(** X14.  When the palette holds bytes, the hex code of every record reads
    back as its colour: ['#'], then two lowercase hex digits for each of
    red, green and blue.  Two records with the same code have the same
    colour. *)
Theorem extract_hex_reads_back `{lib : Imaging} {Hq : QuantizerContract lib}
    (h : heap) p im k bound rs r :
  h !! p = Some im →
  1 ≤ k ≤ 256 →
  Forall (λ v, (0 ≤ v ≤ 255)%Z) (quantize (flattened im bound) k).1 →
  (extract_palette_pillow p k bound h).1 = Returned rs →
  r ∈ rs →
  parse_hexcode (hex r) = Some (rgb r).
Proof.
  intros Hp Hk Hbytes ->%(returned_inv _ _ _ _ _ _ Hp Hk).
  intros (ci & -> & Hci%subseteq_take)%list_elem_of_fmap.
  rewrite sort_reverse_perm in Hci.
  apply (parse_hexcode_of (palette_entry _ ci.2)). rewrite paletted_palette.
  apply palette_entry_byte; [done|].
  pose proof (used_stored im k bound Hk) as Hst.
  by eapply Forall_forall in Hst.
Qed.

(** ** An alpha channel that hides nothing *)

Lemma blend_rgb_opaque bg c : byte_color c → blend_rgb bg c 255 = c.
Proof.
  destruct c as [[r g] b]. intros (Hr & Hg & Hb). unfold blend_rgb. simpl in *.
  by rewrite !blend8_opaque.
Qed.

Lemma blend_opaque_pixels bg (px : list (color * Z)) :
  Forall (λ ca, ca.2 = 255%Z ∧ byte_color ca.1) px →
  zip_with (blend_rgb bg) (fst <$> px) (snd <$> px) = fst <$> px.
Proof.
  induction 1 as [|[c a] px [Ha Hc] _ IH]; [done|]. csimpl. simpl in *.
  by rewrite IH, Ha, blend_rgb_opaque.
Qed.

Lemma quantize_image_ext `{lib : Imaging} im1 im2 k :
  size im1 = size im2 → rgb_pixels im1 = rgb_pixels im2 →
  quantize_image im1 k = quantize_image im2 k.
Proof. unfold quantize_image. by intros -> ->. Qed.

(** X15.  An RGBA image whose alpha is 255 at every pixel gives what the RGB
    image with the same colours gives: flattening over white leaves every
    pixel as it is. *)
Theorem opaque_alpha_is_ignored `{lib : Imaging} (h h' : heap) p p'
    sz (px : list (color * Z)) t t' k bound :
  h !! p = Some (mkImage sz (DataRGBA px) t) →
  h' !! p' = Some (mkImage sz (DataRGB (fst <$> px)) t') →
  length px = sz.1 * sz.2 →
  sz.1 ≤ bound → sz.2 ≤ bound →
  Forall (λ ca, ca.2 = 255%Z ∧ byte_color ca.1) px →
  flattened (mkImage sz (DataRGBA px) t) bound = fst <$> px
  ∧ (extract_palette_pillow p k bound h).1 =
    (extract_palette_pillow p' k bound h').1.
Proof.
  intros Hp Hp' Hlen Hw Hh Hopaque.
  set (im := mkImage sz (DataRGBA px) t).
  set (im' := mkImage sz (DataRGB (fst <$> px)) t').
  assert (rgb_pixels (flatten_image im) = fst <$> px) as Hflat.
  { rewrite flatten_image_blend by done. by apply blend_opaque_pixels. }
  split.
  { unfold flattened. by rewrite thumbnail_image_fits. }
  rewrite (extract_palette_pillow_run _ _ _ _ _ Hp),
    (extract_palette_pillow_run _ _ _ _ _ Hp'). simpl.
  unfold palette_of, used_entries, paletted.
  rewrite !thumbnail_image_fits by done.
  by rewrite (quantize_image_ext (flatten_image im) (flatten_image im') k).
Qed.

(** ** The route [index] *)

Section Route.
Import Flask.
Context `{lib : Imaging} {web : Web}.

Lemma make_preview_run image (h : heap) :
  make_preview image h =
  (Returned (thumbnail_image (h !!! image) 600),
   h ++ [thumbnail_image (h !!! image) 600]).
Proof.
  unfold make_preview, Image_copy, Image_thumbnail.
  rewrite bind_assoc, bind_deref_any, bind_alloc_first.
  repeat run_step.
  unfold deref. rewrite lookup_total_app_r by lia.
  by replace (length h + 0 - length h) with 0 by lia.
Qed.

(** The test of line 135, by the last dot of the file name. *)
Lemma rejected_Some f :
  rejected (Some f) =
  Returned (String.eqb (filename f) ""
            || negb match rpartition "." (filename f) with
                    | Some (_, ext) => bool_decide (lower ext ∈ ALLOWED_EXTENSIONS)
                    | None => false
                    end).
Proof.
  unfold rejected. rewrite allowed_file_rpartition.
  by destruct (String.eqb (filename f) "").
Qed.

Lemma rejected_false f :
  filename f ≠ EmptyString → allowed_file (filename f) = Returned true →
  rejected (Some f) = Returned false.
Proof.
  intros Hname Hok. unfold rejected. rewrite Hok.
  by destruct (String.eqb_spec (filename f) "").
Qed.

(** A request that reaches the decoder with an image: lines 145-167. *)
Lemma index_opened req (h : heap) f im :
  method req = "POST"%string →
  files_image req = Some f →
  rejected (Some f) = Returned false →
  Image_open (stream f) = Opened im →
  let num_colors := requested_colors (form_num_colors req) in
  let k := Z.to_nat num_colors in
  let h1 := (h ++ [im]) ++ allocated im k 800 in
  let preview := thumbnail_image im 600 in
  index req h =
  match palette_of im k 800 with
  | Raised e => (Failed (CoreRaised e), h1)
  | Returned palette =>
      match save_jpeg preview with
      | None => (Failed SaveFailed, h1 ++ [preview])
      | Some buf =>
          (Rendered (mkPage None (Some palette)
                       (Some (String.append "data:image/jpeg;base64," (b64encode buf)))
                       (Some num_colors)),
           h1 ++ [preview])
      end
  end.
Proof.
  intros Hpost Hfile Hrej Hopen num_colors k h1 preview.
  unfold index. rewrite Hpost, Hfile, Hrej, Hopen. cbn [String.eqb].
  change (String.eqb "POST" "POST") with true. cbn iota.
  assert ((h ++ [im]) !! length h = Some im) as Him
    by (rewrite lookup_app_r, Nat.sub_diag by lia; done).
  rewrite (extract_palette_pillow_run _ _ _ _ _ Him).
  fold num_colors. fold k. fold h1.
  destruct (palette_of im k 800) as [palette|e]; [|done].
  rewrite make_preview_run.
  assert (h1 !!! length h = im) as ->.
  { subst h1. rewrite <- (assoc_L (++)).
    rewrite lookup_total_app_r, Nat.sub_diag by lia. done. }
  done.
Qed.

(** Every branch of [index] keeps what the store held. *)
Lemma index_store_prefix req (h : heap) : h `prefix_of` (index req h).2.
Proof.
  destruct (String.eqb_spec (method req) "POST") as [Hpost|Hget];
    [|unfold index; by destruct (String.eqb_spec (method req) "POST")].
  destruct (files_image req) as [f|] eqn:Hfile;
    [|unfold index; rewrite Hpost, Hfile; done].
  destruct (rejected (Some f)) as [[]|e] eqn:Hrej;
    [unfold index; rewrite Hpost, Hfile, Hrej; done| |
     unfold index; rewrite Hpost, Hfile, Hrej; done].
  destruct (Image_open (stream f)) as [im| |] eqn:Hopen;
    [|unfold index; rewrite Hpost, Hfile, Hrej, Hopen; done..].
  rewrite (index_opened req h f im) by done.
  destruct (palette_of im _ 800); [destruct (save_jpeg _)|]; simpl;
    rewrite <- ?(assoc_L (++)); by apply prefix_app_r.
Qed.

End Route.

Section RouteProperties.
Import Flask.
Context `{lib : Imaging} {web : Web}.

Lemma requested_colors_range v : (1 ≤ requested_colors v ≤ 20)%Z.
Proof.
  unfold requested_colors.
  destruct v as [s|]; [destruct (int_of_str s)|]; lia.
Qed.

(** X5.  Whatever the form holds and whatever [int] makes of it, the number
    of colours that the handler asks for lies between 1 and 20: a number
    within 1..20 is kept, and a missing or unreadable field gives 6. *)
Theorem requested_colors_clamped (v : option string) :
  (1 ≤ requested_colors v ≤ 20)%Z
  ∧ (v = None → requested_colors v = 6%Z)
  ∧ (∀ s, v = Some s → int_of_str s = None → requested_colors v = 6%Z)
  ∧ (∀ s n, v = Some s → int_of_str s = Some n → (1 ≤ n ≤ 20)%Z →
       requested_colors v = n).
Proof.
  split; [apply requested_colors_range|]. unfold requested_colors.
  split; [by intros ->|]. split.
  - by intros s -> ->.
  - intros s n -> -> Hn. lia.
Qed.

(** X6.  A POST is answered with the upload error exactly when no file came,
    its name is empty, or [allowed_file] refuses the name; the store is then
    as it was: nothing was decoded. *)
Theorem index_rejects_bad_upload req (h : heap) :
  method req = "POST"%string →
  let bad :=
    match files_image req with
    | None => True
    | Some f =>
        filename f = EmptyString ∨ allowed_file (filename f) = Returned false
    end in
  ((index req h).1 = Rendered (error_page upload_error) ↔ bad)
  ∧ (bad → (index req h).2 = h).
Proof.
  intros Hpost bad. subst bad.
  destruct (files_image req) as [f|] eqn:Hfile;
    [|unfold index; rewrite Hpost, Hfile; done].
  pose proof (rejected_Some f) as Hrej.
  pose proof (allowed_file_rpartition (filename f)) as Hallowed.
  destruct (String.eqb_spec (filename f) "") as [Hname|Hname].
  { unfold index. rewrite Hpost, Hfile, Hrej. simpl. tauto. }
  destruct (match rpartition "." (filename f) with
            | Some (_, ext) => bool_decide (lower ext ∈ ALLOWED_EXTENSIONS)
            | None => false
            end).
  2: { unfold index. rewrite Hpost, Hfile, Hrej. simpl. tauto. }
  assert (rejected (Some f) = Returned false) as Hrej' by (by rewrite Hrej).
  clear Hrej. rename Hrej' into Hrej.
  assert (¬ (filename f = EmptyString
             ∨ allowed_file (filename f) = Returned false)) as Hgood
    by (rewrite Hallowed; intros [?|?]; done).
  split; [|done]. split; [|done]. intros Hpage. exfalso.
  destruct (Image_open (stream f)) as [im| |] eqn:Hopen.
  - rewrite (index_opened req h f im) in Hpage by done.
    destruct (palette_of im _ 800); [destruct (save_jpeg _)|]; done.
  - unfold index in Hpage. rewrite Hpost, Hfile, Hrej, Hopen in Hpage. done.
  - unfold index in Hpage. rewrite Hpost, Hfile, Hrej, Hopen in Hpage. done.
Qed.

(** X9.  The handler keeps every image that the store held, and it never
    changes the image that it has opened: the palette is taken from one
    copy and the preview is scaled on another. *)
Theorem index_keeps_uploaded_image req (h : heap) f im :
  method req = "POST"%string →
  files_image req = Some f →
  filename f ≠ EmptyString →
  allowed_file (filename f) = Returned true →
  Image_open (stream f) = Opened im →
  h `prefix_of` (index req h).2
  ∧ (index req h).2 !! length h = Some im.
Proof.
  intros Hpost Hfile Hname Hok Hopen. split; [apply index_store_prefix|].
  rewrite (index_opened req h f im) by auto using rejected_false.
  assert (∀ l, ((h ++ [im]) ++ l) !! length h = Some im) as Him.
  { intros l. rewrite <- (assoc_L (++)).
    by rewrite lookup_app_r, Nat.sub_diag by lia. }
  destruct (palette_of im _ 800); [destruct (save_jpeg _)|]; simpl;
    rewrite <- ?(assoc_L (++) (h ++ [im])); apply Him.
Qed.

Context {Hq : QuantizerContract lib}.

(** X7.  A page that shows a palette shows no error, a JPEG data URI, a
    number of colours between 1 and 20, and either no record at all or as
    many records as that number. *)
Theorem index_rendered_palette req (h : heap) page rs :
  (index req h).1 = Rendered page →
  page_palette page = Some rs →
  ∃ n data,
    page_num_colors page = Some n
    ∧ n = requested_colors (form_num_colors req)
    ∧ (1 ≤ n ≤ 20)%Z
    ∧ (rs = [] ∨ length rs = Z.to_nat n)
    ∧ page_error page = None
    ∧ page_image_data page =
      Some (String.append "data:image/jpeg;base64," data).
Proof.
  intros Hpage Hrs.
  destruct (String.eqb_spec (method req) "POST") as [Hpost|Hget].
  2: { unfold index in Hpage.
       destruct (String.eqb_spec (method req) "POST"); [done|].
       simpl in Hpage. by injection Hpage as <-. }
  destruct (files_image req) as [f|] eqn:Hfile.
  2: { unfold index in Hpage. rewrite Hpost, Hfile in Hpage.
       simpl in Hpage. by injection Hpage as <-. }
  destruct (rejected (Some f)) as [[]|e] eqn:Hrej.
  1, 3: unfold index in Hpage; rewrite Hpost, Hfile, Hrej in Hpage;
    simpl in Hpage; try done; by injection Hpage as <-.
  destruct (Image_open (stream f)) as [im| |] eqn:Hopen.
  2, 3: unfold index in Hpage; rewrite Hpost, Hfile, Hrej, Hopen in Hpage;
    simpl in Hpage; try done; by injection Hpage as <-.
  rewrite (index_opened req h f im) in Hpage by done.
  pose proof (requested_colors_range (form_num_colors req)) as Hrange.
  destruct (palette_of im _ 800) as [palette|e] eqn:Hpalette; [|done].
  destruct (save_jpeg _) as [buf|]; [|done].
  simpl in Hpage. injection Hpage as <-. simpl in Hrs. injection Hrs as ->.
  exists (requested_colors (form_num_colors req)), (b64encode buf).
  repeat split; try done; try lia.
  apply palette_of_all_or_nothing in Hpalette; [|lia].
  destruct Hpalette as [[_ ->]|(_ & Hlen & _)]; auto.
Qed.

(** X8.  An accepted upload of an image with fewer distinct colours than the
    handler asks for is not answered with a page: [IndexError] leaves the
    handler.  With no [num_colors] field, that is every image of fewer than
    six colours. *)
Theorem index_fails_below_requested_colors req (h : heap) f im :
  method req = "POST"%string →
  files_image req = Some f →
  filename f ≠ EmptyString →
  allowed_file (filename f) = Returned true →
  Image_open (stream f) = Opened im →
  flattened im 800 ≠ [] →
  length (remove_dups (flattened im 800))
    < Z.to_nat (requested_colors (form_num_colors req)) →
  (index req h).1 = Failed (CoreRaised IndexError)
  ∧ (form_num_colors req = None →
     Z.to_nat (requested_colors (form_num_colors req)) = 6).
Proof.
  intros Hpost Hfile Hname Hok Hopen Hne Hfew.
  split; [|by intros ->].
  rewrite (index_opened req h f im) by auto using rejected_false.
  pose proof (requested_colors_range (form_num_colors req)) as Hrange.
  rewrite few_colors_index_error; [done| |done..]. lia.
Qed.

End RouteProperties.

(** ** The further properties on examples *)

Module OnMoreExamples.
Import Examples MoreExamples Flask.

Example allowed_names :
  allowed_file "photo.jpeg" = Returned true
  ∧ allowed_file ".gif" = Returned true
  ∧ allowed_file "png" = Returned false
  ∧ allowed_file "photo." = Returned false
  ∧ allowed_file "photo.jpg " = Returned false
  ∧ allowed_file "" = Returned false.
Proof. repeat split; vm_compute; reflexivity. Qed.

Example post_two_colors_page :
  (index_reference post_two_colors []).1 =
  Rendered (mkPage None
              (Some [mkColorRecord "#616161" (97, 97, 97)%Z 2
                       0x1.0aae147ae147bp+6%float;
                     mkColorRecord "#626262" (98, 98, 98)%Z 1
                       0x1.0aa3d70a3d70ap+5%float])
              (Some "data:image/jpeg;base64,aab"%string) (Some 2%Z)).
Proof. vm_compute. reflexivity. Qed.

Lemma allowed_file_iff_witness :
  allowed_file "holiday.photo.PNG" = Returned true.
Proof.
  apply (allowed_file_iff "holiday.photo.PNG").
  exists "holiday.photo"%string, "PNG"%string.
  split; [reflexivity|]. split; [reflexivity|].
  vm_compute. apply list_elem_of_here.
Defined.

Lemma allowed_file_case_insensitive_witness :
  allowed_file "Scan.JPG" = allowed_file "scan.jpg".
Proof.
  apply (allowed_file_case_insensitive "Scan.JPG" "scan.jpg"). reflexivity.
Defined.

Lemma allowed_file_last_extension_witness :
  allowed_file "shell.php.gif" = Returned true
  ∧ allowed_file "photo.png.sh" = Returned false.
Proof.
  split.
  - apply (allowed_file_last_extension "shell.php" "gif"). reflexivity.
  - apply (allowed_file_last_extension "photo.png" "sh"). reflexivity.
Defined.

Lemma requested_colors_clamped_witness :
  requested_colors (web := Stub.web) (Some "12"%string) = 12%Z
  ∧ requested_colors (web := Stub.web) (Some "twelve"%string) = 6%Z
  ∧ (1 ≤ requested_colors (web := Stub.web) (Some "500"%string) ≤ 20)%Z.
Proof.
  split; [|split].
  - destruct (requested_colors_clamped (web := Stub.web) (Some "12"%string))
      as (_ & _ & _ & Hkept).
    apply (Hkept "12"%string 12%Z); [reflexivity|reflexivity|lia].
  - destruct (requested_colors_clamped (web := Stub.web) (Some "twelve"%string))
      as (_ & _ & Hbad & _).
    apply (Hbad "twelve"%string); reflexivity.
  - apply (requested_colors_clamped (web := Stub.web) (Some "500"%string)).
Defined.

Lemma index_rejects_bad_upload_witness :
  (index_reference post_script []).1 = Rendered (error_page upload_error)
  ∧ (index_reference post_script []).2 = [].
Proof.
  assert (filename (mkFileStorage "photo.png.sh" "aab") = EmptyString
          ∨ allowed_file (filename (mkFileStorage "photo.png.sh" "aab"))
            = Returned false) as Hbad
    by (right; vm_compute; reflexivity).
  pose proof (index_rejects_bad_upload (lib := Reference.imaging)
                (web := Stub.web) post_script [] eq_refl) as [Hpage Hstore].
  split; [exact (proj2 Hpage Hbad)|exact (Hstore Hbad)].
Defined.

Lemma index_keeps_uploaded_image_witness :
  [] `prefix_of` (index_reference post_two_colors []).2
  ∧ (index_reference post_two_colors []).2 !! 0 = Some photo_image.
Proof.
  apply (index_keeps_uploaded_image (lib := Reference.imaging)
           (web := Stub.web) post_two_colors [] photo photo_image).
  - reflexivity.
  - reflexivity.
  - discriminate.
  - vm_compute. reflexivity.
  - reflexivity.
Defined.

Lemma index_rendered_palette_witness :
  ∃ page rs n,
    (index_reference post_two_colors []).1 = Rendered page
    ∧ page_palette page = Some rs
    ∧ page_num_colors page = Some n
    ∧ (1 ≤ n ≤ 20)%Z
    ∧ (rs = [] ∨ length rs = Z.to_nat n).
Proof.
  destruct (index_reference post_two_colors []).1 as [page|] eqn:Hpage;
    [|vm_compute in Hpage; discriminate].
  destruct (page_palette page) as [rs|] eqn:Hrs;
    [|vm_compute in Hpage; injection Hpage as <-; discriminate].
  destruct (index_rendered_palette (lib := Reference.imaging)
              (web := Stub.web) (Hq := ReferenceFacts.quantizer_contract)
              post_two_colors [] page rs Hpage Hrs)
    as (n & data & Hn & _ & Hrange & Hlen & _).
  exists page, rs, n.
  split; [reflexivity|]. split; [exact Hrs|]. split; [exact Hn|].
  split; [exact Hrange|exact Hlen].
Defined.

Lemma index_fails_below_requested_colors_witness :
  (index_reference post_default []).1 = Failed (CoreRaised IndexError).
Proof.
  apply (index_fails_below_requested_colors (lib := Reference.imaging)
           (web := Stub.web) (Hq := ReferenceFacts.quantizer_contract)
           post_default [] photo photo_image).
  - reflexivity.
  - reflexivity.
  - discriminate.
  - vm_compute. reflexivity.
  - reflexivity.
  - vm_compute. discriminate.
  - vm_compute. lia.
Defined.

(** The image is larger than the bound: it is resampled to 4x4. *)
Lemma extract_raises_only_IndexError_witness :
  ∃ e, (run_reference 0 6 4 [red_10x10]).1 = Raised e ∧ e = IndexError.
Proof.
  destruct (run_reference 0 6 4 [red_10x10]).1 as [rs|e] eqn:Hrun;
    [vm_compute in Hrun; discriminate|].
  exists e. split; [done|].
  apply (extract_raises_only_IndexError (lib := Reference.imaging)
           [red_10x10] 0 red_10x10 6 4 e).
  - reflexivity.
  - right. simpl. lia.
  - lia.
  - exact Hrun.
Defined.

Lemma extract_raises_iff_witness :
  (run_reference 0 6 800 [black_white_4x4]).1 = Raised IndexError.
Proof.
  apply (extract_raises_iff (Hq := ReferenceFacts.quantizer_contract)
           [black_white_4x4] 0 black_white_4x4 6 800 IndexError).
  - reflexivity.
  - left. simpl. lia.
  - lia.
  - split; [reflexivity|]. split; [vm_compute; discriminate|vm_compute; lia].
Defined.

Lemma extract_returns_all_or_nothing_witness :
  ∃ rs, (run_reference 0 3 800 [three_colors]).1 = Returned rs
        ∧ length rs = 3
        ∧ sum_list (count <$> rs) = 6.
Proof.
  destruct (run_reference 0 3 800 [three_colors]).1 as [rs|e] eqn:Hrun;
    [|vm_compute in Hrun; discriminate].
  exists rs. split; [done|].
  destruct (extract_returns_all_or_nothing
              (Hq := ReferenceFacts.quantizer_contract)
              [three_colors] 0 three_colors 3 800 rs eq_refl) as [[Hnil _]|Hall];
    [lia|exact Hrun|vm_compute in Hnil; discriminate|].
  destruct Hall as (_ & Hlen & _ & Hsum). split; [exact Hlen|exact Hsum].
Defined.

Lemma extract_record_meaning_witness :
  ∃ rs r idx,
    (run_reference 0 3 800 [three_colors]).1 = Returned rs
    ∧ r ∈ rs
    ∧ idx ∈ (Reference.box_quantize (flattened (lib := Reference.imaging) three_colors 800) 3).2
    ∧ 1 ≤ count r.
Proof.
  destruct (run_reference 0 3 800 [three_colors]).1 as [[|r rs]|e] eqn:Hrun;
    [vm_compute in Hrun; discriminate| |vm_compute in Hrun; discriminate].
  destruct (extract_record_meaning (Hq := ReferenceFacts.quantizer_contract)
              [three_colors] 0 three_colors 3 800 (r :: rs) r eq_refl)
    as (idx & Hidx & _ & _ & Hpos); [lia|exact Hrun|apply list_elem_of_here|].
  exists (r :: rs), r, idx. split; [done|]. split; [apply list_elem_of_here|].
  split; [exact Hidx|exact Hpos].
Defined.

Lemma extract_hex_reads_back_witness :
  ∃ rs r,
    (run_reference 0 3 800 [three_colors]).1 = Returned rs
    ∧ r ∈ rs
    ∧ parse_hexcode (hex r) = Some (rgb r).
Proof.
  destruct (run_reference 0 3 800 [three_colors]).1 as [[|r rs]|e] eqn:Hrun;
    [vm_compute in Hrun; discriminate| |vm_compute in Hrun; discriminate].
  exists (r :: rs), r. split; [done|]. split; [apply list_elem_of_here|].
  apply (extract_hex_reads_back (Hq := ReferenceFacts.quantizer_contract)
           [three_colors] 0 three_colors 3 800 (r :: rs) r).
  - reflexivity.
  - lia.
  - apply (bool_decide_unpack _). vm_compute. exact I.
  - exact Hrun.
  - apply list_elem_of_here.
Defined.

Lemma opaque_alpha_is_ignored_witness :
  flattened (lib := Reference.imaging) opaque_rgba_2x1 800 = [red; teal]
  ∧ (run_reference 0 2 800 [opaque_rgba_2x1]).1 =
    (run_reference 0 2 800 [rgb_2x1]).1.
Proof.
  apply (opaque_alpha_is_ignored (lib := Reference.imaging)
           [opaque_rgba_2x1] [rgb_2x1] 0 0 (2, 1)
           [(red, 255); (teal, 255)]%Z None None 2 800).
  - reflexivity.
  - reflexivity.
  - reflexivity.
  - simpl. lia.
  - simpl. lia.
  - repeat constructor; simpl; lia.
Defined.

End OnMoreExamples.
